(** * ETA core: record containers (eta/core/data.py) and streaming
      vision primitives (eta/core/primitives.py)

    A shallow embedding of the two modules and the properties of their
    specification.

    - Python objects that are shared and mutated (container instances and
      the list objects their [data] attribute refers to) live in an explicit
      heap, so that aliasing and freshness can be stated.
    - Exceptions are values of [Exn]; a computation returns [Ok] or [Raise].
    - External collaborators ([eta.core.utils], [eta.core.video], [cv2],
      [numpy]) are parameters: every call to them is recorded in a trace and
      its outcome is taken from an environment. *)

From Stdlib Require Import List String ZArith Bool Lia.
From stdpp Require Import base list strings gmap.
Import ListNotations.
Local Open Scope string_scope.
Local Open Scope list_scope.

(** ** Python values shared by both modules *)

Module Py.

(** The exception classes the two modules raise or let through. *)
Inductive Exn : Type :=
| ValueError
| KeyError (key : string)
| TypeError
| AttributeError
| NotImplementedError
| UnboundLocalError (var : string)
| BackgroundSubtractorError
| ExternalError (code : nat).

Inductive result (A : Type) : Type :=
| Ok (a : A)
| Raise (e : Exn).
Arguments Ok {A} a.
Arguments Raise {A} e.

Definition rbind {A B} (r : result A) (k : A -> result B) : result B :=
  match r with
  | Ok a => k a
  | Raise e => Raise e
  end.

Definition is_ok {A} (r : result A) : bool :=
  match r with Ok _ => true | Raise _ => false end.

(** [[f(x) for x in xs]]: left to right, the first exception aborts. *)
Fixpoint comprehension {A B} (f : A -> result B) (xs : list A)
  : result (list B) :=
  match xs with
  | [] => Ok []
  | x :: xs' =>
      rbind (f x) (fun y =>
      rbind (comprehension f xs') (fun ys => Ok (y :: ys)))
  end.

(** Structured (JSON) values.  A dictionary is an association list in
    insertion order: iterating a dictionary yields its keys in that
    order, and [d[k]] reads the first binding of [k]. *)
#[warnings="-register-all"]
Inductive json : Type :=
| JNull
| JBool (b : bool)
| JNum (z : Z)
| JStr (s : string)
| JList (items : list json)
| JDict (fields : list (string * json)).

Fixpoint assoc (k : string) (kvs : list (string * json)) : option json :=
  match kvs with
  | [] => None
  | (k', v) :: rest => if String.eqb k k' then Some v else assoc k rest
  end.

(** [d[k]] for a string key [k]. *)
Definition getitem (d : json) (k : string) : result json :=
  match d with
  | JDict kvs =>
      match assoc k kvs with
      | Some v => Ok v
      | None => Raise (KeyError k)
      end
  | _ => Raise TypeError
  end.

(** [for x in v]: the items of a list, the keys of a dictionary, the
    characters of a string; anything else is not iterable. *)
Definition iter (v : json) : result (list json) :=
  match v with
  | JList items => Ok items
  | JDict kvs => Ok (map (fun kv => JStr (fst kv)) kvs)
  | JStr s =>
      Ok (map (fun c => JStr (String c EmptyString)) (list_ascii_of_string s))
  | _ => Raise TypeError
  end.

(** The builtins [any] and [all] on the values a generator yields. *)
Definition any (bs : list bool) : bool := existsb (fun b => b) bs.
Definition all (bs : list bool) : bool := forallb (fun b => b) bs.

End Py.

(** ** eta/core/data.py *)

Module Data.
Import Py.

(** Heap addresses. *)
Abbreviation loc := nat (only parsing).

Section Container.

(** The type of the data instances a container stores. *)
Variable Rec : Type.

(** A data class, seen through its [from_dict] class method. *)
Record DataCls : Type := {
  dc_name : string;
  dc_from_dict : json -> result Rec
}.

(** A container class: [DataContainer] or one of its subclasses. *)
Record Class : Type := {
  cls_name : string;
  _DATA_CLS : option DataCls
}.

(** The base class leaves [_DATA_CLS] at [None]. *)
Definition DataContainer : Class :=
  {| cls_name := "DataContainer"; _DATA_CLS := None |}.


(** Heap objects: a Python list of data instances, and a container
    instance with its class and the list its [data] attribute refers
    to. *)
Inductive obj : Type :=
| OList (items : list Rec)
| OInst (cls : Class) (data : loc).

(** Objects are never freed; a new object takes the next address. *)
Abbreviation heap := (list obj) (only parsing).

(** A computation on the heap.  [None] means the heap is ill-formed at
    some access (a dangling reference, or a [data] attribute that is
    not a list), which no Python execution produces. *)
Definition M (A : Type) : Type := heap -> option (result A * heap).

Definition ret {A} (a : A) : M A := fun h => Some (Ok a, h).
Definition raise {A} (e : Exn) : M A := fun h => Some (Raise e, h).
Definition bind {A B} (m : M A) (k : A -> M B) : M B :=
  fun h =>
    match m h with
    | Some (Ok a, h') => k a h'
    | Some (Raise e, h') => Some (Raise e, h')
    | None => None
    end.
Definition lift {A} (r : result A) : M A := fun h => Some (r, h).

Definition alloc (o : obj) : M loc :=
  fun h => Some (Ok (length h), h ++ [o]).

Definition get_list (l : loc) : M (list Rec) :=
  fun h =>
    match h !! l with
    | Some (OList xs) => Some (Ok xs, h)
    | _ => None
    end.

Definition get_inst (l : loc) : M (Class * loc) :=
  fun h =>
    match h !! l with
    | Some (OInst c d) => Some (Ok (c, d), h)
    | _ => None
    end.

Definition set_list (l : loc) (xs : list Rec) : M unit :=
  fun h =>
    match h !! l with
    | Some (OList _) => Some (Ok tt, <[l := OList xs]> h)
    | _ => None
    end.

Notation "'let*' x ':=' m 'in' k" := (bind m (fun x => k))
  (at level 10, x name, m at level 100, k at level 200).

(** [DataContainer._validate] *)
Definition _validate (cls : Class) : M unit :=
  match _DATA_CLS cls with
  | None => raise ValueError
  | Some _ => ret tt
  end.

(** [data or []]: [None] and the empty list are falsy and give a new empty
    list; a non-empty list is kept as it is, by reference. *)
Definition data_or_empty (data : option loc) : M loc :=
  match data with
  | None => alloc (OList [])
  | Some l =>
      let* xs := get_list l in
      match xs with
      | [] => alloc (OList [])
      | _ :: _ => ret l
      end
  end.

(** [cls(data=data)]: [DataContainer.__init__] on a new instance.  The
    instance enters the heap when [__init__] returns; when [__init__]
    raises, nothing refers to the object under construction. *)
Definition __init__ (cls : Class) (data : option loc) : M loc :=
  let* _ := _validate cls in
  let* d := data_or_empty data in
  alloc (OInst cls d).

(** [DataContainer.get_data_class] *)
Definition get_data_class (cls : Class) : option DataCls := _DATA_CLS cls.

(** [DataContainer.num] *)
Definition num (self : loc) : M nat :=
  let* cd := get_inst self in
  let* xs := get_list (snd cd) in
  ret (length xs).

(** [DataContainer.__iter__]: what iterating the container yields. *)
Definition __iter__ (self : loc) : M (list Rec) :=
  let* cd := get_inst self in
  get_list (snd cd).

(** [DataContainer.add]: appends in place to the list [self.data] refers
    to. *)
Definition add (self : loc) (instance : Rec) : M unit :=
  let* cd := get_inst self in
  let* xs := get_list (snd cd) in
  set_list (snd cd) (xs ++ [instance]).

(** [filter(lambda o: match(f(o) for f in filters), data)] *)
Definition selected (filters : list (Rec -> bool))
    (match_ : list bool -> bool) (data : list Rec) : list Rec :=
  List.filter (fun o => match_ (map (fun f => f o) filters)) data.

(** [DataContainer.get_matches].  [filters] are the predicate functions and
    [match_] the aggregator ([any] by default); [list(filter(...))] builds a
    new list object, which is handed to the constructor of the receiver's
    own class. *)
Definition get_matches (self : loc) (filters : list (Rec -> bool))
    (match_ : list bool -> bool) : M loc :=
  let* cd := get_inst self in
  let* xs := get_list (snd cd) in
  let* l := alloc (OList (selected filters match_ xs)) in
  __init__ (fst cd) (Some l).

(** [DataContainer.count_matches] *)
Definition count_matches (self : loc) (filters : list (Rec -> bool))
    (match_ : list bool -> bool) : M nat :=
  let* r := get_matches self filters match_ in
  let* cd := get_inst r in
  let* xs := get_list (snd cd) in
  ret (length xs).

(** [DataContainer.from_dict] *)
Definition from_dict (cls : Class) (d : json) : M loc :=
  let* _ := _validate cls in
  let* items := lift (rbind (getitem d "data") iter) in
  let* recs := lift (comprehension
                  (fun do =>
                     match _DATA_CLS cls with
                     | Some dc => dc_from_dict dc do
                     | None => Raise AttributeError
                     end) items) in
  let* l := alloc (OList recs) in
  __init__ cls (Some l).

(** [h] holds at [self] an instance of class [cls] whose [data] list holds
    the records [xs].  An instance exists only once [__init__] returned, so
    its class has a bound data class. *)
Definition container_at (h : heap) (self : loc) (cls : Class)
    (xs : list Rec) : Prop :=
  exists d, h !! self = Some (OInst cls d) /\ h !! d = Some (OList xs)
            /\ _DATA_CLS cls <> None.

(** The records of the container a computation returns. *)
Definition records_of (m : M loc) (h : heap) : option (list Rec) :=
  match m h with
  | Some (Ok r, h') =>
      match h' !! r with
      | Some (OInst _ d) =>
          match h' !! d with
          | Some (OList xs) => Some xs
          | _ => None
          end
      | _ => None
      end
  | _ => None
  end.

End Container.

Arguments OList {Rec} items.
Arguments OInst {Rec} cls data.
Arguments DataContainer {Rec}.
Arguments ret {Rec A} a.
Arguments raise {Rec A} e.
Arguments bind {Rec A B} m k.
Arguments lift {Rec A} r.
Arguments alloc {Rec} o.
Arguments get_list {Rec} l.
Arguments get_inst {Rec} l.
Arguments set_list {Rec} l xs.
Arguments _validate {Rec} cls.
Arguments data_or_empty {Rec} data.
Arguments __init__ {Rec} cls data.
Arguments num {Rec} self.
Arguments __iter__ {Rec} self.
Arguments get_data_class {Rec} cls.
Arguments add {Rec} self instance.
Arguments selected {Rec} filters match_ data.
Arguments get_matches {Rec} self filters match_.
Arguments count_matches {Rec} self filters match_.
Arguments from_dict {Rec} cls d.
Arguments container_at {Rec} h self cls xs.
Arguments records_of {Rec} m h.
Arguments _DATA_CLS {Rec} c.
Arguments cls_name {Rec} c.
Arguments dc_from_dict {Rec} d.
Arguments dc_name {Rec} d.

(** *** The concrete classes of the module *)

Section LocalizedTags.

(** [eta.core.geometry.RelativePoint] is outside this module: its type and
    its [from_dict] are parameters, as is the builtin [str]. *)
Variable RelativePoint : Type.
Variable RelativePoint_from_dict : json -> result RelativePoint.
Variable str : json -> string.

Record NamedRelativePoint : Type := {
  label : string;
  relative_point : RelativePoint
}.

(** [NamedRelativePoint.from_dict]: the arguments are evaluated left to
    right, then the constructor applies [str] to the label. *)
Definition NamedRelativePoint_from_dict (d : json)
  : result NamedRelativePoint :=
  rbind (getitem d "label") (fun l =>
  rbind (getitem d "relative_point") (fun rp =>
  rbind (RelativePoint_from_dict rp) (fun p =>
  Ok {| label := str l; relative_point := p |}))).

Definition NamedRelativePoint_cls : DataCls NamedRelativePoint :=
  {| dc_name := "NamedRelativePoint";
     dc_from_dict := NamedRelativePoint_from_dict |}.

Definition LocalizedTags : Class NamedRelativePoint :=
  {| cls_name := "LocalizedTags";
     _DATA_CLS := Some NamedRelativePoint_cls |}.

(** [LocalizedTags.label_set]: [set(dat.label for dat in self.data)] *)
Definition label_set (self : loc) : M NamedRelativePoint (gset string) :=
  bind (get_inst self) (fun cd =>
  bind (get_list (snd cd)) (fun xs =>
  ret (list_to_set (map label xs)))).

End LocalizedTags.

Arguments label_set {RelativePoint} self.

End Data.

(** ** eta/core/primitives.py *)

Module Primitives.
Import Py.

(** The resources a run holds: the [FFmpegVideoReader] [r], the
    [FFmpegVideoWriter]s [fgw] and [bgw], and the [VideoProcessor] [p]. *)
Inductive Handle : Type := Reader | FgWriter | BgWriter | Processor.

(** The calls a [process] method makes to its collaborators and to the
    hooks of its subclass.  Frame numbers are those of the reader, which
    counts from 1. *)
Inductive Call : Type :=
| EnsureBasedir (path : string)
| OpenReader (path : string)
| OpenWriter (h : Handle) (path : string)
| ProcessorInit (inpath : string) (out_single_vidpath : option string)
| ProcessorEnter
| ProcessorExit
| Reset
| Next (h : Handle) (n : nat)
| ProcessFrame (n : nat)
| Save (template : string) (n : nat)
| Write (h : Handle) (n : nat)
| Close (h : Handle).

(** A call and whether it returned ([true]) or raised ([false]); for
    [Next], [true] means a frame was yielded. *)
Definition Event : Type := Call * bool.

(** Truthiness of an optional path argument: [None] and the empty string
    are falsy. *)
Definition truthy (path : option string) : bool :=
  match path with
  | Some s => negb (String.eqb s "")
  | None => false
  end.

(** Whether the collaborator call [f] that a path argument triggers
    returns. *)
Definition path_ok (path : option string) (f : string -> result unit)
  : bool :=
  match path with
  | Some p => if truthy path then is_ok (f p) else true
  | None => true
  end.

Section Pipeline.

(** [numpy.ndarray]: frames, masks and flow fields alike; [cv2.KeyPoint];
    and the background subtractor objects of [cv2]. *)
Context {ndarray KeyPoint Subtractor : Type}.

(** The array computations of [numpy] and [cv2] that [process] applies to
    the result of a frame.  Their numerics are not modelled; each may
    raise. *)
Record Numeric : Type := {
  (** [flow_cart[..., i]] *)
  channel : ndarray -> nat -> result ndarray;
  cartToPolar : ndarray -> ndarray -> result (ndarray * ndarray);
  dstack : ndarray -> ndarray -> result ndarray;
  (** [_polar_flow_to_img(mag, ang)] *)
  _polar_flow_to_img : ndarray -> ndarray -> result ndarray;
  (** [img[np.where(fgmask == 0)] = 0], as the new content of [img] *)
  zero_background : ndarray -> ndarray -> result ndarray;
  (** [edges.astype(np.bool)] *)
  astype_bool : ndarray -> result ndarray;
  cvtColor_GRAY2BGR : ndarray -> result ndarray;
  cvtColor_BGR2GRAY : ndarray -> result ndarray;
  (** [_unpack_keypoints(keypoints)] *)
  _unpack_keypoints : list KeyPoint -> result ndarray;
  drawKeypoints : ndarray -> list KeyPoint -> result ndarray
}.

(** The collaborators of one run.  [stream] is what iterating the input
    yields, and [stream_end] how the iteration ends: [None] when it is
    exhausted, [Some e] when reading the next frame raises [e]. *)
Record Env : Type := {
  ensure_basedir : string -> result unit;
  reader_open : string -> result unit;
  stream : list ndarray;
  stream_end : option Exn;
  writer_open : Handle -> string -> result unit;
  writer_write : Handle -> nat -> ndarray -> result unit;
  writer_close : Handle -> result unit;
  np_save : string -> nat -> ndarray -> result unit;
  processor_init : string -> option string -> result unit;
  processor_enter : result unit;
  processor_exit : bool -> result bool
}.

(** The state of a run: the algorithm object [self] and the local
    variables of [process] that are bound to a writer. *)
Record St (S : Type) : Type := {
  self : S;
  locals : list Handle
}.
Arguments self {S} s.
Arguments locals {S} s.

(** A step of a run: a result, the new state, and the calls made. *)
Definition P (S A : Type) : Type := St S -> result A * St S * list Event.

Definition ret {S A} (a : A) : P S A := fun s => (Ok a, s, []).
Definition raise {S A} (e : Exn) : P S A := fun s => (Raise e, s, []).
Definition lift {S A} (r : result A) : P S A := fun s => (r, s, []).
Definition bind {S A B} (m : P S A) (k : A -> P S B) : P S B :=
  fun s =>
    match m s with
    | (Ok a, s1, t1) =>
        match k a s1 with
        | (r, s2, t2) => (r, s2, t1 ++ t2)
        end
    | (Raise e, s1, t1) => (Raise e, s1, t1)
    end.

Notation "'let*' x ':=' m 'in' k" := (bind m (fun x => k))
  (at level 10, x name, m at level 100, k at level 200).

(** A call to a collaborator: recorded, then its outcome. *)
Definition call {S A} (c : Call) (r : result A) : P S A :=
  fun s => (r, s, [(c, is_ok r)]).

(** [try: body finally: fin].  An exception of [fin] replaces the outcome
    of [body]. *)
Definition try_finally {S A} (body : P S A) (fin : P S unit) : P S A :=
  fun s =>
    match body s with
    | (r, s1, t1) =>
        match fin s1 with
        | (Ok _, s2, t2) => (r, s2, t1 ++ t2)
        | (Raise e, s2, t2) => (Raise e, s2, t1 ++ t2)
        end
    end.

(** [if path: k(path)] *)
Definition if_path {S} (path : option string) (k : string -> P S unit)
  : P S unit :=
  match path with
  | Some s => if truthy path then k s else ret tt
  | None => ret tt
  end.

(** A frame algorithm: the [_reset] and [_process_frame] hooks of a
    subclass, acting on the attributes [S] of the object. *)
Record FrameAlg (S R : Type) : Type := {
  _reset : S -> result unit * S;
  _process_frame : S -> ndarray -> result R * S
}.
Arguments _reset {S R} f s.
Arguments _process_frame {S R} f s img.

Section Run.

Variable env : Env.
Variable np : Numeric.
Context {S : Type}.

(** [self._reset()] *)
Definition reset {R} (alg : FrameAlg S R) : P S unit :=
  fun s =>
    match _reset alg (self s) with
    | (r, a) => (r, {| self := a; locals := locals s |}, [(Reset, is_ok r)])
    end.

(** [self._process_frame(img)] on frame number [n] *)
Definition process_frame {R} (alg : FrameAlg S R) (n : nat) (img : ndarray)
  : P S R :=
  fun s =>
    match _process_frame alg (self s) img with
    | (r, a) =>
        (r, {| self := a; locals := locals s |}, [(ProcessFrame n, is_ok r)])
    end.

(** [for img in h: body], where [frame_number] is [n] once the [n]th frame
    was read.  The iteration ends when [next] raises: [StopIteration] ends
    the loop, anything else propagates. *)
Fixpoint for_frames (h : Handle) (frames : list ndarray) (n : nat)
    (body : nat -> ndarray -> P S unit) : P S unit :=
  match frames with
  | [] =>
      fun s =>
        (match stream_end env with
         | None => Ok tt
         | Some e => Raise e
         end, s, [(Next h n, false)])
  | img :: rest =>
      let* _ := call (Next h n) (Ok tt) in
      let* _ := body n img in
      for_frames h rest (Datatypes.S n) body
  end.

(** [w = etav.FFmpegVideoWriter(path, r.frame_rate, r.frame_size)] *)
Definition open_writer (h : Handle) (path : string) : P S unit :=
  let* _ := call (OpenWriter h path) (writer_open env h path) in
  fun s => (Ok tt, {| self := self s; locals := h :: locals s |}, []).

(** Reading the local variable that holds writer [h]. *)
Definition local_name (h : Handle) : string :=
  match h with
  | Reader => "r"
  | FgWriter => "fgw"
  | BgWriter => "bgw"
  | Processor => "p"
  end.

Definition handle_eqb (a b : Handle) : bool :=
  match a, b with
  | Reader, Reader | FgWriter, FgWriter
  | BgWriter, BgWriter | Processor, Processor => true
  | _, _ => false
  end.

Definition read_local (h : Handle) : P S unit :=
  fun s =>
    if existsb (handle_eqb h) (locals s) then (Ok tt, s, [])
    else (Raise (UnboundLocalError (local_name h)), s, []).

(** [w.write(img)] and [w.close()] through the local variable. *)
Definition write_local (h : Handle) (n : nat) (img : ndarray) : P S unit :=
  let* _ := read_local h in
  call (Write h n) (writer_write env h n img).

Definition close_local (h : Handle) : P S unit :=
  let* _ := read_local h in
  call (Close h) (writer_close env h).

(** [with etav.VideoProcessor(input_path, out_single_vidpath=vid_path) as
    p: body].  [__exit__] is told whether [body] raised, and its result
    says whether to swallow the exception. *)
Definition with_processor (input_path : string) (vid_path : option string)
    (body : P S unit) : P S unit :=
  let* _ := call (ProcessorInit input_path vid_path)
              (processor_init env input_path vid_path) in
  let* _ := call ProcessorEnter (processor_enter env) in
  fun s =>
    match body s with
    | (r, s1, t1) =>
        let x := processor_exit env (negb (is_ok r)) in
        let t := t1 ++ [(ProcessorExit, is_ok x)] in
        match x, r with
        | Raise e, _ => (Raise e, s1, t)
        | Ok true, Raise _ => (Ok tt, s1, t)
        | Ok _, _ => (r, s1, t)
        end
    end.

(** [if path: etau.ensure_basedir(path)] *)
Definition ensure (path : option string) : P S unit :=
  if_path path (fun p => call (EnsureBasedir p) (ensure_basedir env p)).

(** [np.save(template % frame_number, arr)] *)
Definition save (template : string) (n : nat) (arr : ndarray) : P S unit :=
  call (Save template n) (np_save env template n arr).

(** [DenseOpticalFlow.process] *)
Definition DenseOpticalFlow_process (alg : FrameAlg S ndarray)
    (input_path : string) (cart_path polar_path vid_path : option string)
  : P S unit :=
  let* _ := ensure cart_path in
  let* _ := ensure polar_path in
  let* _ := reset alg in
  with_processor input_path vid_path
    (for_frames Processor (stream env) 1 (fun n img =>
       let* flow_cart := process_frame alg n img in
       let* _ := if_path cart_path (fun p => save p n flow_cart) in
       if negb (truthy polar_path) && negb (truthy vid_path) then ret tt
       else
         let* x := lift (channel np flow_cart 0) in
         let* y := lift (channel np flow_cart 1) in
         let* ma := lift (cartToPolar np x y) in
         let* flow_polar := lift (dstack np (fst ma) (snd ma)) in
         let* _ := if_path polar_path (fun p => save p n flow_polar) in
         if_path vid_path (fun _ =>
           let* v := lift (_polar_flow_to_img np (fst ma) (snd ma)) in
           call (Write Processor n) (writer_write env Processor n v)))).

(** The [finally] block of [BackgroundSubtractor.process]. *)
Definition BackgroundSubtractor_finally (fgvid_path bgvid_path : option string)
  : P S unit :=
  let* _ := if_path fgvid_path (fun _ => close_local FgWriter) in
  if_path bgvid_path (fun _ => close_local BgWriter).

(** [BackgroundSubtractor.process] *)
Definition BackgroundSubtractor_process (alg : FrameAlg S (ndarray * ndarray))
    (input_path : string) (fgmask_path fgvid_path bgvid_path : option string)
  : P S unit :=
  let* _ := ensure fgmask_path in
  let* _ := call (OpenReader input_path) (reader_open env input_path) in
  try_finally
    (let* _ := if_path fgvid_path (fun p => open_writer FgWriter p) in
     let* _ := if_path bgvid_path (fun p => open_writer BgWriter p) in
     let* _ := reset alg in
     for_frames Reader (stream env) 1 (fun n img =>
       let* fb := process_frame alg n img in
       let* _ := if_path fgmask_path (fun p => save p n (fst fb)) in
       let* _ := if_path fgvid_path (fun _ =>
                   let* img' := lift (zero_background np img (fst fb)) in
                   write_local FgWriter n img') in
       if_path bgvid_path (fun _ => write_local BgWriter n (snd fb))))
    (BackgroundSubtractor_finally fgvid_path bgvid_path).

(** [EdgeDetector.process] *)
Definition EdgeDetector_process (alg : FrameAlg S ndarray)
    (input_path : string) (masks_path vid_path : option string) : P S unit :=
  let* _ := ensure masks_path in
  let* _ := reset alg in
  with_processor input_path vid_path
    (for_frames Processor (stream env) 1 (fun n img =>
       let* edges := process_frame alg n img in
       let* _ := if_path masks_path (fun p =>
                   let* b := lift (astype_bool np edges) in
                   save p n b) in
       if_path vid_path (fun _ =>
         let* v := lift (cvtColor_GRAY2BGR np edges) in
         call (Write Processor n) (writer_write env Processor n v)))).

(** [FeaturePointDetector.process] *)
Definition FeaturePointDetector_process (alg : FrameAlg S (list KeyPoint))
    (input_path : string) (coords_path vid_path : option string) : P S unit :=
  let* _ := ensure coords_path in
  let* _ := reset alg in
  with_processor input_path vid_path
    (for_frames Processor (stream env) 1 (fun n img =>
       let* keypoints := process_frame alg n img in
       let* _ := if_path coords_path (fun p =>
                   let* pts := lift (_unpack_keypoints np keypoints) in
                   save p n pts) in
       if_path vid_path (fun _ =>
         let* v := lift (drawKeypoints np img keypoints) in
         call (Write Processor n) (writer_write env Processor n v)))).

(** Everything around the frames of [BackgroundSubtractor.process] goes
    well: the directory of the masks, the reader, the writers and their
    closing. *)
Definition setup_ok (input_path : string)
    (fgmask_path fgvid_path bgvid_path : option string) : bool :=
  path_ok fgmask_path (ensure_basedir env)
  && is_ok (reader_open env input_path)
  && path_ok fgvid_path (writer_open env FgWriter)
  && path_ok bgvid_path (writer_open env BgWriter)
  && is_ok (writer_close env FgWriter)
  && is_ok (writer_close env BgWriter).

(** The same for what the arguments ask for only: a writer that is not
    requested is neither opened nor closed, so its closing does not
    matter. *)
Definition requested_setup_ok (input_path : string)
    (fgmask_path fgvid_path bgvid_path : option string) : bool :=
  path_ok fgmask_path (ensure_basedir env)
  && is_ok (reader_open env input_path)
  && path_ok fgvid_path (writer_open env FgWriter)
  && path_ok bgvid_path (writer_open env BgWriter)
  && path_ok fgvid_path (fun _ => writer_close env FgWriter)
  && path_ok bgvid_path (fun _ => writer_close env BgWriter).

End Run.

(** *** The algorithm classes *)

Section Algorithms.

(** Python floats that are stored and passed on, never computed with. *)
Context {float : Type}.

(** The functions of [cv2] the algorithm classes wrap.  A factory that the
    installed OpenCV does not have is [None]: looking it up raises
    [AttributeError]. *)
Record CV2 : Type := {
  calcOpticalFlowFarneback :
    ndarray -> ndarray -> float -> Z -> Z -> Z -> Z -> float -> Z
    -> result ndarray;
  OPTFLOW_FARNEBACK_GAUSSIAN : Z;
  createBackgroundSubtractorMOG2 :
    option (Z -> float -> bool -> result Subtractor);
  createBackgroundSubtractorKNN :
    option (Z -> float -> bool -> result Subtractor);
  apply : Subtractor -> ndarray -> float -> result ndarray * Subtractor;
  getBackgroundImage : Subtractor -> result ndarray;
  Canny : ndarray -> Z -> Z -> Z -> bool -> result ndarray
}.

Variable np : Numeric.
Variable cv2 : CV2.

(** The base classes: [_reset] does nothing and [_process_frame] is left to
    the subclass. *)
Definition abstract_alg (R : Type) : FrameAlg unit R :=
  {| _reset := fun s => (Ok tt, s);
     _process_frame := fun s _ => (Raise NotImplementedError, s) |}.

Definition DenseOpticalFlow : FrameAlg unit ndarray := abstract_alg ndarray.
Definition BackgroundSubtractor : FrameAlg unit (ndarray * ndarray) :=
  abstract_alg (ndarray * ndarray).
Definition EdgeDetector : FrameAlg unit ndarray := abstract_alg ndarray.
Definition FeaturePointDetector : FrameAlg unit (list KeyPoint) :=
  abstract_alg (list KeyPoint).

(** [FarnebackDenseOpticalFlow]: its attributes. *)
Record Farneback : Type := {
  pyramid_scale : float;
  pyramid_levels : Z;
  window_size : Z;
  iterations : Z;
  poly_n : Z;
  poly_sigma : float;
  use_gaussian_filter : bool;
  _prev_frame : option ndarray;
  _flags : Z
}.

(** [FarnebackDenseOpticalFlow.__init__] *)
Definition Farneback_init (pyramid_scale : float) (pyramid_levels : Z)
    (window_size iterations poly_n : Z) (poly_sigma : float)
    (use_gaussian_filter : bool) : Farneback :=
  {| pyramid_scale := pyramid_scale;
     pyramid_levels := pyramid_levels;
     window_size := window_size;
     iterations := iterations;
     poly_n := poly_n;
     poly_sigma := poly_sigma;
     use_gaussian_filter := use_gaussian_filter;
     _prev_frame := None;
     _flags := if use_gaussian_filter
               then OPTFLOW_FARNEBACK_GAUSSIAN cv2 else 0%Z |}.

Definition set_prev_frame (s : Farneback) (f : option ndarray) : Farneback :=
  {| pyramid_scale := pyramid_scale s;
     pyramid_levels := pyramid_levels s;
     window_size := window_size s;
     iterations := iterations s;
     poly_n := poly_n s;
     poly_sigma := poly_sigma s;
     use_gaussian_filter := use_gaussian_filter s;
     _prev_frame := f;
     _flags := _flags s |}.

(** The call of [cv2.calcOpticalFlowFarneback] with the attributes of
    [s]. *)
Definition farneback_flow (s : Farneback) (prev curr : ndarray)
  : result ndarray :=
  calcOpticalFlowFarneback cv2 prev curr (pyramid_scale s)
    (pyramid_levels s) (window_size s) (iterations s) (poly_n s)
    (poly_sigma s) (_flags s).

(** [FarnebackDenseOpticalFlow._process_frame] *)
Definition Farneback_process_frame (s : Farneback) (img : ndarray)
  : result ndarray * Farneback :=
  match cvtColor_BGR2GRAY np img with
  | Raise e => (Raise e, s)
  | Ok curr_frame =>
      let s1 :=
        match _prev_frame s with
        | None => set_prev_frame s (Some curr_frame)
        | Some _ => s
        end in
      match _prev_frame s1 with
      | None => (Raise TypeError, s1)
      | Some prev =>
          match farneback_flow s1 prev curr_frame with
          | Raise e => (Raise e, s1)
          | Ok flow_cart => (Ok flow_cart, set_prev_frame s1 (Some curr_frame))
          end
      end
  end.

(** [FarnebackDenseOpticalFlow._reset] *)
Definition Farneback_reset (s : Farneback) : result unit * Farneback :=
  (Ok tt, set_prev_frame s None).

Definition FarnebackDenseOpticalFlow : FrameAlg Farneback ndarray :=
  {| _reset := Farneback_reset; _process_frame := Farneback_process_frame |}.

(** The attributes of [MOG2BackgroundSubtractor] and of
    [KNNBackgroundSubtractor]. *)
Record Subtraction : Type := {
  history : Z;
  threshold : float;
  learning_rate : float;
  detect_shadows : bool;
  _fgbg : option Subtractor
}.

Definition Subtraction_init (history : Z) (threshold learning_rate : float)
    (detect_shadows : bool) : Subtraction :=
  {| history := history; threshold := threshold;
     learning_rate := learning_rate; detect_shadows := detect_shadows;
     _fgbg := None |}.

Definition set_fgbg (s : Subtraction) (m : option Subtractor) : Subtraction :=
  {| history := history s; threshold := threshold s;
     learning_rate := learning_rate s; detect_shadows := detect_shadows s;
     _fgbg := m |}.

(** [_process_frame] of both subtractors.  Before [_reset], [_fgbg] is
    [None], which has no [apply]. *)
Definition Subtraction_process_frame (s : Subtraction) (img : ndarray)
  : result (ndarray * ndarray) * Subtraction :=
  match _fgbg s with
  | None => (Raise AttributeError, s)
  | Some m =>
      match apply cv2 m img (learning_rate s) with
      | (Raise e, m') => (Raise e, set_fgbg s (Some m'))
      | (Ok fgmask, m') =>
          match getBackgroundImage cv2 m' with
          | Raise e => (Raise e, set_fgbg s (Some m'))
          | Ok bgimg => (Ok (fgmask, bgimg), set_fgbg s (Some m'))
          end
      end
  end.

(** [_reset] of both subtractors, for the factory [create] of [cv2]:
    [try: self._fgbg = create(...) except AttributeError: raise
    BackgroundSubtractorError(...)]. *)
Definition Subtraction_reset
    (create : option (Z -> float -> bool -> result Subtractor))
    (s : Subtraction) : result unit * Subtraction :=
  match create with
  | None => (Raise BackgroundSubtractorError, s)
  | Some f =>
      match f (history s) (threshold s) (detect_shadows s) with
      | Ok m => (Ok tt, set_fgbg s (Some m))
      | Raise AttributeError => (Raise BackgroundSubtractorError, s)
      | Raise e => (Raise e, s)
      end
  end.

Definition MOG2BackgroundSubtractor
  : FrameAlg Subtraction (ndarray * ndarray) :=
  {| _reset := Subtraction_reset (createBackgroundSubtractorMOG2 cv2);
     _process_frame := Subtraction_process_frame |}.

Definition KNNBackgroundSubtractor
  : FrameAlg Subtraction (ndarray * ndarray) :=
  {| _reset := Subtraction_reset (createBackgroundSubtractorKNN cv2);
     _process_frame := Subtraction_process_frame |}.

(** [CannyEdgeDetector] *)
Record CannyAttrs : Type := {
  threshold1 : Z;
  threshold2 : Z;
  aperture_size : Z;
  l2_gradient : bool
}.

Definition CannyEdgeDetector : FrameAlg CannyAttrs ndarray :=
  {| _reset := fun s => (Ok tt, s);
     _process_frame := fun s img =>
       (rbind (cvtColor_BGR2GRAY np img) (fun gray =>
          Canny cv2 gray (threshold1 s) (threshold2 s) (aperture_size s)
            (l2_gradient s)), s) |}.

End Algorithms.

(** *** Reading a trace *)

(** The events of frame iteration: a frame read, processed, or an output
    written for it. *)
Definition frame_event (ev : Event) : bool :=
  match fst ev with
  | Next _ _ => snd ev
  | ProcessFrame _ | Save _ _ | Write _ _ => true
  | _ => false
  end.

(** The handles acquired by a run, in order of acquisition. *)
Fixpoint acquired (t : list Event) : list Handle :=
  match t with
  | [] => []
  | (OpenReader _, true) :: t' => Reader :: acquired t'
  | (OpenWriter h _, true) :: t' => h :: acquired t'
  | _ :: t' => acquired t'
  end.

(** The handles released by a run, in order of release. *)
Fixpoint released (t : list Event) : list Handle :=
  match t with
  | [] => []
  | (Close h, _) :: t' => h :: released t'
  | _ :: t' => released t'
  end.

Definition is_writer (h : Handle) : bool :=
  match h with
  | FgWriter | BgWriter => true
  | _ => false
  end.

(** The path templates among [paths] that [process] takes as given. *)
Fixpoint supplied (paths : list (option string)) : list string :=
  match paths with
  | [] => []
  | Some p :: rest =>
      if truthy (Some p) then p :: supplied rest else supplied rest
  | None :: rest => supplied rest
  end.

(** No event of [t] belongs to frame iteration. *)
Definition frameless (t : list Event) : bool :=
  forallb (fun ev => negb (frame_event ev)) t.

(** A step that binds no local variable and neither acquires nor releases
    a handle. *)
Definition quiet {S A} (m : P S A) : Prop :=
  forall s,
    locals (snd (fst (m s))) = locals s
    /\ released (snd (m s)) = []
    /\ acquired (snd (m s)) = [].

(** The result and the trace of a run that starts with no local bound. *)
Definition run {S A} (m : P S A) (s : S) : result A * list Event :=
  match m {| self := s; locals := [] |} with
  | (r, _, t) => (r, t)
  end.

End Pipeline.

Arguments Numeric : clear implicits.
Arguments Env : clear implicits.
Arguments FrameAlg : clear implicits.
Arguments CV2 : clear implicits.
Arguments Farneback : clear implicits.
Arguments Subtraction : clear implicits.
Arguments _reset {ndarray S R} f s.
Arguments _process_frame {ndarray S R} f s img.
Arguments self {S} s.
Arguments locals {S} s.

(** *** More readings of a trace *)

(** A call of [ensure_basedir], whatever its outcome. *)
Definition is_ensure_call (ev : Event) : bool :=
  match fst ev with
  | EnsureBasedir _ => true
  | _ => false
  end.

(** The calls of [ensure_basedir] on the templates [ps], in order, each
    one returning. *)
Definition ensure_calls (ps : list string) : list Event :=
  map (fun p => (EnsureBasedir p, true)) ps.

(** What a run with the outcome [rt] (its result and its trace) does for
    the array path templates [ps].  Either it starts with
    [ensure_basedir] on each of them, in order, each call returning, and
    everything else it does comes after; or it fails fast: [ensure_basedir]
    raises on one of the templates, after it returned on the ones before,
    nothing else is done, and the run raises that error. *)
Definition ensured_first {ndarray} (env : Env ndarray) (ps : list string)
    (rt : result unit * list Event) : Prop :=
  (exists rest,
      snd rt = ensure_calls ps ++ rest
      /\ forallb (fun ev => negb (is_ensure_call ev)) rest = true)
  \/ (exists ps1 q ps2 e,
         ps = ps1 ++ q :: ps2
         /\ ensure_basedir env q = Raise e
         /\ snd rt = ensure_calls ps1 ++ [(EnsureBasedir q, false)]
         /\ fst rt = Raise e).

(** In the trace [t], every event other than a call of [ensure_basedir]
    (opening the input, [_reset], reading, processing or writing a frame)
    comes after a call of [ensure_basedir] on [p] that returned. *)
Definition after_ensure (p : string) (t : list Event) : Prop :=
  forall pre ev post,
    t = pre ++ ev :: post -> is_ensure_call ev = false ->
    In (EnsureBasedir p, true) pre.

(** Every event of every run of [m] passes the test [q]. *)
Definition only {S A} (q : Event -> bool) (m : P S A) : Prop :=
  forall s, forallb q (snd (m s)) = true.

(** The frame numbers on which [_process_frame] was called, in order. *)
Fixpoint processed (t : list Event) : list nat :=
  match t with
  | [] => []
  | (ProcessFrame n, _) :: t' => n :: processed t'
  | _ :: t' => processed t'
  end.

(** The array files written: the calls of [np.save] that returned, with
    their path template and frame number, in order. *)
Fixpoint saved (t : list Event) : list (string * nat) :=
  match t with
  | [] => []
  | (Save p n, true) :: t' => (p, n) :: saved t'
  | _ :: t' => saved t'
  end.

(** The frames written to the video behind [h]: the frame numbers of the
    calls of [write] that returned, in order. *)
Fixpoint written (h : Handle) (t : list Event) : list nat :=
  match t with
  | [] => []
  | (Write h' n, true) :: t' =>
      if handle_eqb h h' then n :: written h t' else written h t'
  | _ :: t' => written h t'
  end.

(** An event that concerns an output is one that was asked for: [arrays]
    are the array path templates given, and [fg], [bg] and [vid] tell
    whether the foreground video, the background video and the video of
    the [VideoProcessor] were asked for. *)
Definition requested (arrays : list string) (fg bg vid : bool) (ev : Event)
  : bool :=
  match fst ev with
  | EnsureBasedir p | Save p _ => existsb (String.eqb p) arrays
  | OpenWriter FgWriter _ | Write FgWriter _ | Close FgWriter => fg
  | OpenWriter BgWriter _ | Write BgWriter _ | Close BgWriter => bg
  | Write Processor _ => vid
  | OpenWriter _ _ | Write _ _ | Close _ => false
  | _ => true
  end.

(** In the trace [t], every event that passes [target] comes after an
    event that passes [guard]. *)
Definition preceded (guard target : Event -> bool) (t : list Event) : Prop :=
  forall pre ev post,
    t = pre ++ ev :: post -> target ev = true ->
    exists g, In g pre /\ guard g = true.

(** The same, as a scan of the trace. *)
Fixpoint precededb (guard target : Event -> bool) (t : list Event) : bool :=
  match t with
  | [] => true
  | ev :: t' =>
      if target ev then false
      else if guard ev then true
      else precededb guard target t'
  end.

Definition is_reset_ok (ev : Event) : bool :=
  match ev with
  | (Reset, true) => true
  | _ => false
  end.

Definition is_process_frame (ev : Event) : bool :=
  match fst ev with
  | ProcessFrame _ => true
  | _ => false
  end.

Definition is_exit (ev : Event) : bool :=
  match fst ev with
  | ProcessorExit => true
  | _ => false
  end.

Definition is_close_reader (ev : Event) : bool :=
  match fst ev with
  | Close Reader => true
  | _ => false
  end.

Definition is_enter_ok (ev : Event) : bool :=
  match ev with
  | (ProcessorEnter, true) => true
  | _ => false
  end.

(** *** Packing and unpacking keypoints *)

Section Keypoints.

(** A coordinate, and [cv2.KeyPoint] with its constructor
    [cv2.KeyPoint(x, y, size)] and its attribute [pt]. *)
Context {coord KeyPoint : Type}.
Variable KeyPoint_new : coord -> coord -> nat -> KeyPoint.
Variable pt : KeyPoint -> coord * coord.

(** [_pack_keypoints], on the rows [[row, col]] of an n x 2 array. *)
Definition _pack_keypoints (pts : list (coord * coord)) : list KeyPoint :=
  map (fun x => KeyPoint_new (snd x) (fst x) 1) pts.

(** [_unpack_keypoints], giving the rows of the array it builds.  (The
    name with the underscore is the field of [Numeric] through which
    [process] calls it.) *)
Definition unpack_keypoints (keypoints : list KeyPoint)
  : list (coord * coord) :=
  map (fun kp => (snd (pt kp), fst (pt kp))) keypoints.

End Keypoints.

End Primitives.

(** ** Concrete inputs *)

Module Examples.
Import Py Data.

(** A stand-in for [RelativePoint]: a number, decoded from a JSON number. *)
Definition point_from_dict (d : json) : result Z :=
  match d with
  | JNum z => Ok z
  | _ => Raise TypeError
  end.

(** [str] on the labels that occur below. *)
Definition str (d : json) : string :=
  match d with
  | JStr s => s
  | _ => ""
  end.

Definition Tag : Type := NamedRelativePoint Z.
Definition Tags : Class Tag := LocalizedTags Z point_from_dict str.

Definition car : Tag := {| label := "car"; relative_point := 0%Z |}.
Definition dog : Tag := {| label := "dog"; relative_point := 1%Z |}.

(** A heap with one [LocalizedTags] instance, at address 1, holding two
    tags. *)
Definition tags_heap : list (obj Tag) := [OList [car; dog]; OInst Tags 0].

Definition is_car (t : Tag) : bool := String.eqb (label Z t) "car".
Definition is_dog (t : Tag) : bool := String.eqb (label Z t) "dog".

(** A run environment in which every collaborator returns: the input has
    two frames, arrays are numbers. *)
Definition studio : Primitives.Env nat :=
  {| Primitives.ensure_basedir := fun _ => Ok tt;
     Primitives.reader_open := fun _ => Ok tt;
     Primitives.stream := [10; 11];
     Primitives.stream_end := None;
     Primitives.writer_open := fun _ _ => Ok tt;
     Primitives.writer_write := fun _ _ _ => Ok tt;
     Primitives.writer_close := fun _ => Ok tt;
     Primitives.np_save := fun _ _ _ => Ok tt;
     Primitives.processor_init := fun _ _ => Ok tt;
     Primitives.processor_enter := Ok tt;
     Primitives.processor_exit := fun _ => Ok false |}.

Definition arrays : Primitives.Numeric nat nat :=
  {| Primitives.channel := fun a _ => Ok a;
     Primitives.cartToPolar := fun x y => Ok (x, y);
     Primitives.dstack := fun x _ => Ok x;
     Primitives._polar_flow_to_img := fun m _ => Ok m;
     Primitives.zero_background := fun img _ => Ok img;
     Primitives.astype_bool := fun a => Ok a;
     Primitives.cvtColor_GRAY2BGR := fun a => Ok a;
     Primitives.cvtColor_BGR2GRAY := fun a => Ok a;
     Primitives._unpack_keypoints := fun kps => Ok (length kps);
     Primitives.drawKeypoints := fun img _ => Ok img |}.

(** An OpenCV with the background subtractor factories, and one
    without. *)
Definition opencv3 : Primitives.CV2 nat nat Z :=
  {| Primitives.calcOpticalFlowFarneback :=
       fun prev curr _ _ _ _ _ _ _ => Ok (curr - prev);
     Primitives.OPTFLOW_FARNEBACK_GAUSSIAN := 256%Z;
     Primitives.createBackgroundSubtractorMOG2 := Some (fun _ _ _ => Ok 0);
     Primitives.createBackgroundSubtractorKNN := Some (fun _ _ _ => Ok 0);
     Primitives.apply := fun m img _ => (Ok img, Datatypes.S m);
     Primitives.getBackgroundImage := fun m => Ok m;
     Primitives.Canny := fun gray _ _ _ _ => Ok gray |}.

Definition opencv2 : Primitives.CV2 nat nat Z :=
  {| Primitives.calcOpticalFlowFarneback :=
       fun prev curr _ _ _ _ _ _ _ => Ok (curr - prev);
     Primitives.OPTFLOW_FARNEBACK_GAUSSIAN := 256%Z;
     Primitives.createBackgroundSubtractorMOG2 := None;
     Primitives.createBackgroundSubtractorKNN := None;
     Primitives.apply := fun m img _ => (Ok img, Datatypes.S m);
     Primitives.getBackgroundImage := fun m => Ok m;
     Primitives.Canny := fun gray _ _ _ _ => Ok gray |}.

(** A subtractor object with the default arguments of the constructor. *)
Definition subtraction : Primitives.Subtraction nat Z :=
  Primitives.Subtraction_init 500%Z 16%Z (-1)%Z false.

(** A Farneback object that has already seen the frame 7. *)
Definition farneback : Primitives.Farneback nat Z :=
  Primitives.set_prev_frame
    (Primitives.Farneback_init opencv3 1%Z 3%Z 15%Z 3%Z 7%Z 2%Z false) (Some 7).

(** [NamedRelativePoint.from_dict] on the stand-ins. *)
Definition point_tag_from_dict : json -> result Tag :=
  NamedRelativePoint_from_dict Z point_from_dict str.

(** The JSON forms of the two tags. *)
Definition car_json : json :=
  JDict [("label", JStr "car"); ("relative_point", JNum 0)].
Definition dog_json : json :=
  JDict [("label", JStr "dog"); ("relative_point", JNum 1)].

(** Arrays on which the conversion to polar coordinates raises. *)
Definition arrays_without_polar : Primitives.Numeric nat nat :=
  {| Primitives.channel := fun _ _ => Raise (ExternalError 1);
     Primitives.cartToPolar := fun _ _ => Raise (ExternalError 2);
     Primitives.dstack := fun _ _ => Raise (ExternalError 3);
     Primitives._polar_flow_to_img := fun _ _ => Raise (ExternalError 4);
     Primitives.zero_background := fun img _ => Ok img;
     Primitives.astype_bool := fun a => Ok a;
     Primitives.cvtColor_GRAY2BGR := fun a => Ok a;
     Primitives.cvtColor_BGR2GRAY := fun a => Ok a;
     Primitives._unpack_keypoints := fun kps => Ok (length kps);
     Primitives.drawKeypoints := fun img _ => Ok img |}.

(** A predicate that both tags pass. *)
Definition in_frame (t : Tag) : bool := (0 <=? relative_point Z t)%Z.

(** The studio with video writers that cannot be closed. *)
Definition studio_close_fails : Primitives.Env nat :=
  {| Primitives.ensure_basedir := fun _ => Ok tt;
     Primitives.reader_open := fun _ => Ok tt;
     Primitives.stream := [10; 11];
     Primitives.stream_end := None;
     Primitives.writer_open := fun _ _ => Ok tt;
     Primitives.writer_write := fun _ _ _ => Ok tt;
     Primitives.writer_close := fun _ => Raise (ExternalError 9);
     Primitives.np_save := fun _ _ _ => Ok tt;
     Primitives.processor_init := fun _ _ => Ok tt;
     Primitives.processor_enter := Ok tt;
     Primitives.processor_exit := fun _ => Ok false |}.

(** The studio with a directory that cannot be created, and the studio
    with an input that has no frame. *)
Definition studio_readonly : Primitives.Env nat :=
  {| Primitives.ensure_basedir := fun _ => Raise (ExternalError 30);
     Primitives.reader_open := fun _ => Ok tt;
     Primitives.stream := [10; 11];
     Primitives.stream_end := None;
     Primitives.writer_open := fun _ _ => Ok tt;
     Primitives.writer_write := fun _ _ _ => Ok tt;
     Primitives.writer_close := fun _ => Ok tt;
     Primitives.np_save := fun _ _ _ => Ok tt;
     Primitives.processor_init := fun _ _ => Ok tt;
     Primitives.processor_enter := Ok tt;
     Primitives.processor_exit := fun _ => Ok false |}.

Definition studio_empty : Primitives.Env nat :=
  {| Primitives.ensure_basedir := fun _ => Ok tt;
     Primitives.reader_open := fun _ => Ok tt;
     Primitives.stream := [];
     Primitives.stream_end := None;
     Primitives.writer_open := fun _ _ => Ok tt;
     Primitives.writer_write := fun _ _ _ => Ok tt;
     Primitives.writer_close := fun _ => Ok tt;
     Primitives.np_save := fun _ _ _ => Ok tt;
     Primitives.processor_init := fun _ _ => Ok tt;
     Primitives.processor_enter := Ok tt;
     Primitives.processor_exit := fun _ => Ok false |}.

(** A stand-in for [cv2.KeyPoint]: the constructor stores its arguments
    and [pt] gives back the first two. *)
Definition keypoint (x y : Z) (size : nat) : Z * Z * nat := (x, y, size).
Definition keypoint_pt (kp : Z * Z * nat) : Z * Z := fst kp.

(** The studio with a foreground writer that cannot be opened, and the
    studio with a background writer that cannot be opened. *)
Definition studio_without (h : Primitives.Handle) : Primitives.Env nat :=
  {| Primitives.ensure_basedir := fun _ => Ok tt;
     Primitives.reader_open := fun _ => Ok tt;
     Primitives.stream := [10; 11];
     Primitives.stream_end := None;
     Primitives.writer_open := fun h' _ =>
       if Primitives.handle_eqb h h' then Raise (ExternalError 13)
       else Ok tt;
     Primitives.writer_write := fun _ _ _ => Ok tt;
     Primitives.writer_close := fun _ => Ok tt;
     Primitives.np_save := fun _ _ _ => Ok tt;
     Primitives.processor_init := fun _ _ => Ok tt;
     Primitives.processor_enter := Ok tt;
     Primitives.processor_exit := fun _ => Ok false |}.

End Examples.

(** * Properties of eta/core/data.py *)

Module DataProps.
Import Py Data.

Section Heap.

Context {Rec : Type}.
Implicit Types (h : list (obj Rec)) (cls : Class Rec) (xs : list Rec).

Lemma lookup_fresh h (o : obj Rec) ext :
  (h ++ o :: ext) !! length h = Some o.
Proof. apply list_lookup_middle. reflexivity. Qed.

Lemma lookup_fresh_next h (o1 o2 : obj Rec) ext :
  (h ++ o1 :: o2 :: ext) !! Datatypes.S (length h) = Some o2.
Proof.
  change (h ++ o1 :: o2 :: ext) with (h ++ [o1] ++ o2 :: ext).
  rewrite app_assoc. apply list_lookup_middle.
  rewrite length_app. simpl. lia.
Qed.

Lemma lookup_old h ext i (o : obj Rec) :
  h !! i = Some o -> (h ++ ext) !! i = Some o.
Proof. intros H. apply lookup_app_l_Some. exact H. Qed.

(** What [get_matches] does to the heap: it allocates a list and an
    instance after the existing objects and touches nothing else. *)
Lemma get_matches_run h self cls xs filters match_ :
  container_at h self cls xs ->
  exists r d ext,
    get_matches self filters match_ h = Some (Ok r, h ++ ext)
    /\ (h ++ ext) !! r = Some (OInst cls d)
    /\ (h ++ ext) !! d = Some (OList (selected filters match_ xs))
    /\ length h <= d /\ length h <= r.
Proof.
  intros (d0 & Hs & Hd & Hb).
  unfold get_matches, bind, get_inst, get_list, alloc, __init__, _validate,
    data_or_empty, bind, get_list, alloc, ret.
  rewrite Hs. simpl. rewrite Hd.
  destruct (_DATA_CLS cls) as [dc|] eqn:Hc; [|congruence].
  rewrite lookup_fresh.
  destruct (selected filters match_ xs) as [|y ys] eqn:Hsel.
  - exists (Datatypes.S (Datatypes.S (length h))), (Datatypes.S (length h)),
      [OList []; OList []; OInst cls (Datatypes.S (length h))].
    rewrite !length_app. simpl.
    replace (length h + 1) with (Datatypes.S (length h)) by lia.
    replace (Datatypes.S (length h) + 1)
      with (Datatypes.S (Datatypes.S (length h))) by lia.
    rewrite <- !app_assoc. simpl.
    split; [reflexivity|]. split.
    + change (h ++ [OList []; OList []; OInst cls (Datatypes.S (length h))])
        with (h ++ [OList []] ++ [OList []; OInst cls (Datatypes.S (length h))]).
      rewrite app_assoc.
      replace (Datatypes.S (Datatypes.S (length h)))
        with (Datatypes.S (length (h ++ [OList (Rec:=Rec) []]))).
      * apply lookup_fresh_next.
      * rewrite length_app. simpl. lia.
    + split; [apply lookup_fresh_next|]. lia.
  - exists (Datatypes.S (length h)), (length h),
      [OList (y :: ys); OInst cls (length h)].
    rewrite !length_app. simpl.
    replace (length h + 1) with (Datatypes.S (length h)) by lia.
    rewrite <- !app_assoc. simpl.
    split; [reflexivity|]. split; [apply lookup_fresh_next|].
    split; [apply lookup_fresh|]. lia.
Qed.

(** The records of the container [get_matches] returns. *)
Lemma get_matches_records h self cls xs filters match_ :
  container_at h self cls xs ->
  records_of (get_matches self filters match_) h
  = Some (selected filters match_ xs).
Proof.
  intros H.
  destruct (get_matches_run h self cls xs filters match_ H)
    as (r & d & ext & Hrun & Hr & Hd & _).
  unfold records_of. rewrite Hrun, Hr, Hd. reflexivity.
Qed.

Lemma selected_In filters match_ xs x :
  In x (selected filters match_ xs)
  <-> In x xs /\ match_ (map (fun f => f x) filters) = true.
Proof. unfold selected. apply filter_In. Qed.

Lemma all_implies_any (bs : list bool) :
  bs <> [] -> all bs = true -> any bs = true.
Proof.
  destruct bs as [|b bs]; [congruence|].
  intros _. unfold all, any. simpl.
  destruct b; simpl; [reflexivity | discriminate].
Qed.

Lemma selected_none xs : selected (Rec:=Rec) [] any xs = [].
Proof. induction xs as [|x xs IH]; [reflexivity | exact IH]. Qed.

Lemma selected_every xs : selected (Rec:=Rec) [] all xs = xs.
Proof.
  induction xs as [|x xs IH]; [reflexivity|].
  unfold selected in *. simpl in *. rewrite IH. reflexivity.
Qed.

Lemma container_at_old h ext self cls xs :
  container_at h self cls xs -> container_at (h ++ ext) self cls xs.
Proof.
  intros (d & Hs & Hd & Hb). exists d.
  split; [apply lookup_old; exact Hs|].
  split; [apply lookup_old; exact Hd | exact Hb].
Qed.

(** C2, as amended: for a non-empty list of predicates, every record that
    [get_matches] returns under [all] is returned under [any] as well. *)
Theorem get_matches_all_subset_any h self cls xs filters :
  container_at h self cls xs ->
  filters <> [] ->
  exists ya yb,
    records_of (get_matches self filters all) h = Some ya
    /\ records_of (get_matches self filters any) h = Some yb
    /\ forall x, In x ya -> In x yb.
Proof.
  intros Hc Hne.
  exists (selected filters all xs), (selected filters any xs).
  split; [apply (get_matches_records h self cls); exact Hc|].
  split; [apply (get_matches_records h self cls); exact Hc|].
  intros x Hx. apply selected_In in Hx. destruct Hx as [Hin Hall].
  apply selected_In. split; [exact Hin|].
  apply all_implies_any; [|exact Hall].
  destruct filters; [congruence | discriminate].
Qed.

(** C3, as amended: decoding a dictionary whose [data] entry is the empty
    list yields an empty container of the class; decoding a dictionary
    without a [data] entry raises [KeyError] and creates nothing. *)
Theorem from_dict_empty_and_missing h cls fields :
  _DATA_CLS cls <> None ->
  (assoc "data" fields = Some (JList []) ->
   exists r ext,
     from_dict cls (JDict fields) h = Some (Ok r, h ++ ext)
     /\ container_at (h ++ ext) r cls [])
  /\ (assoc "data" fields = None ->
      from_dict cls (JDict fields) h = Some (Raise (KeyError "data"), h)).
Proof.
  intros Hb. split; intros Hf.
  - unfold from_dict, bind, _validate, lift, getitem, rbind, alloc,
      __init__, bind, _validate, data_or_empty, bind, get_list, alloc, ret.
    destruct (_DATA_CLS cls) as [dc|] eqn:Hc; [|congruence].
    rewrite Hf. simpl. rewrite lookup_fresh.
    exists (Datatypes.S (Datatypes.S (length h))),
      [OList []; OList []; OInst cls (Datatypes.S (length h))].
    rewrite !length_app. simpl.
    replace (length h + 1) with (Datatypes.S (length h)) by lia.
    replace (Datatypes.S (length h) + 1)
      with (Datatypes.S (Datatypes.S (length h))) by lia.
    rewrite <- !app_assoc. simpl.
    split; [reflexivity|].
    exists (Datatypes.S (length h)). split.
    + change (h ++ [OList []; OList []; OInst cls (Datatypes.S (length h))])
        with (h ++ [OList []] ++ [OList []; OInst cls (Datatypes.S (length h))]).
      rewrite app_assoc.
      replace (Datatypes.S (Datatypes.S (length h)))
        with (Datatypes.S (length (h ++ [OList (Rec:=Rec) []]))).
      * apply lookup_fresh_next.
      * rewrite length_app. simpl. lia.
    + split; [apply lookup_fresh_next | congruence].
  - unfold from_dict, bind, _validate, lift, getitem, rbind, ret.
    destruct (_DATA_CLS cls) as [dc|] eqn:Hc; [|congruence].
    rewrite Hf. reflexivity.
Qed.

(** C4: a container class whose [_DATA_CLS] is unset cannot be used: both
    the constructor and [from_dict] raise [ValueError], whatever their
    argument, and leave the heap as it was, so that no record is stored
    or decoded and no instance exists. *)
Theorem unbound_container_fails_fast h cls :
  _DATA_CLS cls = None ->
  (forall data, __init__ cls data h = Some (Raise ValueError, h))
  /\ (forall d, from_dict cls d h = Some (Raise ValueError, h)).
Proof.
  intros Hn. split; intros a.
  - unfold __init__, bind, _validate, raise. rewrite Hn. reflexivity.
  - unfold from_dict, bind, _validate, raise. rewrite Hn. reflexivity.
Qed.

(** C7: under [any], the records matched by [[p1; p2]] are those matched
    by [p1] alone together with those matched by [p2] alone. *)
Theorem get_matches_any_is_union h self cls xs (p1 p2 : Rec -> bool) :
  container_at h self cls xs ->
  exists y y1 y2,
    records_of (get_matches self [p1; p2] any) h = Some y
    /\ records_of (get_matches self [p1] any) h = Some y1
    /\ records_of (get_matches self [p2] any) h = Some y2
    /\ forall x, In x y <-> In x y1 \/ In x y2.
Proof.
  intros Hc.
  exists (selected [p1; p2] any xs), (selected [p1] any xs),
    (selected [p2] any xs).
  split; [apply (get_matches_records h self cls); exact Hc|].
  split; [apply (get_matches_records h self cls); exact Hc|].
  split; [apply (get_matches_records h self cls); exact Hc|].
  intros x. rewrite !selected_In. unfold any. simpl.
  destruct (p1 x), (p2 x); simpl; intuition discriminate.
Qed.

(** C9: [get_matches] returns an instance that did not exist before, of
    the class of the receiver, whose [data] list is new as well; every
    object of the heap, the receiver and its list among them, is as it
    was.  [count_matches] returns the number of selected records and
    leaves every object as it was. *)
Theorem get_matches_frame h self cls xs filters match_ :
  container_at h self cls xs ->
  (exists r d ext,
     get_matches self filters match_ h = Some (Ok r, h ++ ext)
     /\ r <> self /\ h !! r = None
     /\ (h ++ ext) !! r = Some (OInst cls d) /\ h !! d = None
     /\ container_at (h ++ ext) r cls (selected filters match_ xs)
     /\ container_at (h ++ ext) self cls xs)
  /\ (exists ext,
        count_matches self filters match_ h
        = Some (Ok (length (selected filters match_ xs)), h ++ ext)
        /\ container_at (h ++ ext) self cls xs).
Proof.
  intros Hc.
  destruct (get_matches_run h self cls xs filters match_ Hc)
    as (r & d & ext & Hrun & Hr & Hd & Hld & Hlr).
  assert (Hb : _DATA_CLS cls <> None) by (destruct Hc as (? & ? & ? & ?); assumption).
  split.
  - exists r, d, ext. split; [exact Hrun|].
    split.
    + destruct Hc as (d0 & Hs & _). intros ->.
      apply lookup_lt_Some in Hs. lia.
    + split; [apply lookup_ge_None; lia|].
      split; [exact Hr|].
      split; [apply lookup_ge_None; lia|].
      split; [exists d; auto | apply container_at_old; exact Hc].
  - exists ext. split; [|apply container_at_old; exact Hc].
    unfold count_matches, bind. rewrite Hrun.
    unfold get_inst. rewrite Hr. simpl.
    unfold get_list. rewrite Hd. reflexivity.
Qed.

(** C10: with no predicate at all, [any] (the default) selects no record
    and [all] selects every record. *)
Theorem get_matches_no_filters h self cls xs :
  container_at h self cls xs ->
  records_of (get_matches self [] any) h = Some []
  /\ records_of (get_matches self [] all) h = Some xs.
Proof.
  intros Hc. split.
  - rewrite (get_matches_records h self cls xs); [|exact Hc].
    rewrite selected_none. reflexivity.
  - rewrite (get_matches_records h self cls xs); [|exact Hc].
    rewrite selected_every. reflexivity.
Qed.

End Heap.

Import Examples.

Lemma tags_heap_container : container_at tags_heap 1 Tags [car; dog].
Proof.
  exists 0. split; [reflexivity|]. split; [reflexivity | discriminate].
Defined.

(** Two predicates on which [all] and [any] differ: [car] passes both,
    [dog] passes the second only. *)
Lemma get_matches_all_subset_any_witness :
  container_at tags_heap 1 Tags [car; dog]
  /\ [is_car; in_frame] <> []
  /\ records_of (get_matches 1 [is_car; in_frame] all) tags_heap = Some [car]
  /\ records_of (get_matches 1 [is_car; in_frame] any) tags_heap
     = Some [car; dog]
  /\ exists ya yb,
       records_of (get_matches 1 [is_car; in_frame] all) tags_heap = Some ya
       /\ records_of (get_matches 1 [is_car; in_frame] any) tags_heap
          = Some yb
       /\ forall x, In x ya -> In x yb.
Proof.
  split; [exact tags_heap_container|].
  split; [discriminate|].
  split; [reflexivity|]. split; [reflexivity|].
  apply (get_matches_all_subset_any tags_heap 1 Tags [car; dog]
           [is_car; in_frame]);
    [exact tags_heap_container | discriminate].
Defined.

(** C2 as stated fails for the empty list of predicates: [all] keeps both
    tags and [any] keeps none. *)
Lemma get_matches_all_subset_any_counterexample :
  records_of (get_matches 1 [] all) tags_heap = Some [car; dog]
  /\ records_of (get_matches 1 [] any) tags_heap = Some []
  /\ ~ (forall x, In x [car; dog] -> In x (@nil Tag)).
Proof.
  split; [reflexivity|]. split; [reflexivity|].
  intros H. exact (H car (or_introl eq_refl)).
Qed.

Lemma from_dict_empty_and_missing_witness :
  _DATA_CLS Tags <> None
  /\ (exists r ext,
        from_dict Tags (JDict [("data", JList [])]) [] = Some (Ok r, [] ++ ext)
        /\ container_at ([] ++ ext) r Tags [])
  /\ from_dict Tags (JDict [("label", JStr "car")]) []
     = Some (Raise (KeyError "data"), []).
Proof.
  assert (Hb : _DATA_CLS Tags <> None) by discriminate.
  split; [exact Hb|]. split.
  - apply (proj1 (from_dict_empty_and_missing [] Tags
                    [("data", JList [])] Hb)). reflexivity.
  - apply (proj2 (from_dict_empty_and_missing [] Tags
                    [("label", JStr "car")] Hb)). reflexivity.
Defined.

(** C3 as stated fails for a dictionary without a [data] entry: decoding
    it returns no container. *)
Lemma from_dict_missing_counterexample :
  ~ (exists r h',
       from_dict Tags (JDict []) [] = Some (Ok r, h')
       /\ container_at h' r Tags []).
Proof. intros (r & h' & H & _). discriminate H. Qed.

Lemma unbound_container_fails_fast_witness :
  _DATA_CLS (Rec:=Tag) DataContainer = None
  /\ (forall data,
        __init__ (Rec:=Tag) DataContainer data tags_heap
        = Some (Raise ValueError, tags_heap))
  /\ (forall d,
        from_dict (Rec:=Tag) DataContainer d tags_heap
        = Some (Raise ValueError, tags_heap)).
Proof.
  split; [reflexivity|].
  apply (unbound_container_fails_fast tags_heap DataContainer). reflexivity.
Defined.

Lemma get_matches_any_is_union_witness :
  container_at tags_heap 1 Tags [car; dog]
  /\ exists y y1 y2,
       records_of (get_matches 1 [is_car; is_dog] any) tags_heap = Some y
       /\ records_of (get_matches 1 [is_car] any) tags_heap = Some y1
       /\ records_of (get_matches 1 [is_dog] any) tags_heap = Some y2
       /\ forall x, In x y <-> In x y1 \/ In x y2.
Proof.
  split; [exact tags_heap_container|].
  apply (get_matches_any_is_union tags_heap 1 Tags [car; dog] is_car is_dog).
  exact tags_heap_container.
Defined.

Lemma get_matches_frame_witness :
  container_at tags_heap 1 Tags [car; dog]
  /\ (exists r d ext,
        get_matches 1 [is_car] any tags_heap = Some (Ok r, tags_heap ++ ext)
        /\ r <> 1 /\ tags_heap !! r = None
        /\ (tags_heap ++ ext) !! r = Some (OInst Tags d)
        /\ tags_heap !! d = None
        /\ container_at (tags_heap ++ ext) r Tags
             (selected [is_car] any [car; dog])
        /\ container_at (tags_heap ++ ext) 1 Tags [car; dog])
  /\ (exists ext,
        count_matches 1 [is_car] any tags_heap
        = Some (Ok (length (selected [is_car] any [car; dog])),
                tags_heap ++ ext)
        /\ container_at (tags_heap ++ ext) 1 Tags [car; dog]).
Proof.
  split; [exact tags_heap_container|].
  apply (get_matches_frame tags_heap 1 Tags [car; dog] [is_car] any).
  exact tags_heap_container.
Defined.

Lemma get_matches_no_filters_witness :
  container_at tags_heap 1 Tags [car; dog]
  /\ records_of (get_matches 1 [] any) tags_heap = Some []
  /\ records_of (get_matches 1 [] all) tags_heap = Some [car; dog].
Proof.
  split; [exact tags_heap_container|].
  apply (get_matches_no_filters tags_heap 1 Tags [car; dog]).
  exact tags_heap_container.
Defined.

End DataProps.

(** * Properties of eta/core/primitives.py *)

Module PrimitivesProps.
Import Py Primitives.

Section Only.

Context {ndarray KeyPoint : Type}.
Variable env : Env ndarray.
Variable np : Numeric ndarray KeyPoint.
Context {S : Type}.
Variable q : Event -> bool.

Lemma only_ret {A} (a : A) : only q (ret (S:=S) a).
Proof. intros s. reflexivity. Qed.

Lemma only_lift {A} (r : result A) : only q (lift (S:=S) r).
Proof. intros s. reflexivity. Qed.

Lemma only_call {A} c (r : result A) :
  q (c, is_ok r) = true -> only q (call (S:=S) c r).
Proof. intros H s. simpl. rewrite H. reflexivity. Qed.

Lemma only_bind {A B} (m : P S A) (k : A -> P S B) :
  only q m -> (forall a, only q (k a)) -> only q (bind m k).
Proof.
  intros Hm Hk s. unfold bind. specialize (Hm s).
  destruct (m s) as [[r s1] t1]. simpl in Hm.
  destruct r as [a|e]; [|exact Hm].
  specialize (Hk a s1). destruct (k a s1) as [[r2 s2] t2]. simpl in *.
  rewrite forallb_app, Hm, Hk. reflexivity.
Qed.

Lemma only_if_path path (k : string -> P S unit) :
  (forall p, path = Some p -> truthy path = true -> only q (k p)) ->
  only q (if_path path k).
Proof.
  intros Hk. unfold if_path. destruct path as [p|]; [|apply only_ret].
  destruct (truthy (Some p)) eqn:Ht; [|apply only_ret].
  apply Hk; reflexivity || exact Ht.
Qed.

Lemma only_reset {R} (alg : FrameAlg ndarray S R) :
  (forall b, q (Reset, b) = true) -> only q (reset alg).
Proof.
  intros H s. unfold reset. destruct (_reset alg (self s)) as [r a].
  simpl. rewrite H. reflexivity.
Qed.

Lemma only_process_frame {R} (alg : FrameAlg ndarray S R) n img :
  (forall b, q (ProcessFrame n, b) = true) ->
  only q (process_frame alg n img).
Proof.
  intros H s. unfold process_frame.
  destruct (_process_frame alg (self s) img) as [r a].
  simpl. rewrite H. reflexivity.
Qed.

Lemma only_for_frames h frames (body : nat -> ndarray -> P S unit) :
  (forall n b, q (Next h n, b) = true) ->
  (forall n img, only q (body n img)) ->
  forall n, only q (for_frames env h frames n body).
Proof.
  intros Hn Hb. induction frames as [|img rest IH]; intros n.
  - intros s. simpl. rewrite Hn. reflexivity.
  - simpl. apply only_bind; [apply only_call; apply Hn|]. intros _.
    apply only_bind; [apply Hb|]. intros _. apply IH.
Qed.

Lemma only_read_local h : only q (read_local (S:=S) h).
Proof.
  intros s. unfold read_local.
  destruct (existsb (handle_eqb h) (locals s)); reflexivity.
Qed.

Lemma only_write_local h n img :
  (forall b, q (Write h n, b) = true) ->
  only q (write_local (S:=S) env h n img).
Proof.
  intros H. apply only_bind; [apply only_read_local|]. intros _.
  apply only_call. apply H.
Qed.

Lemma only_close_local h :
  (forall b, q (Close h, b) = true) -> only q (close_local (S:=S) env h).
Proof.
  intros H. apply only_bind; [apply only_read_local|]. intros _.
  apply only_call. apply H.
Qed.

Lemma only_open_writer h p :
  (forall b, q (OpenWriter h p, b) = true) ->
  only q (open_writer (S:=S) env h p).
Proof.
  intros H. apply only_bind; [apply only_call; apply H|]. intros _ s.
  reflexivity.
Qed.

Lemma only_try_finally {A} (body : P S A) (fin : P S unit) :
  only q body -> only q fin -> only q (try_finally body fin).
Proof.
  intros Hb Hf s. unfold try_finally. specialize (Hb s).
  destruct (body s) as [[r s1] t1]. specialize (Hf s1).
  destruct (fin s1) as [[r2 s2] t2]. simpl in *.
  destruct r2; simpl; rewrite forallb_app, Hb, Hf; reflexivity.
Qed.

Lemma only_with_processor input_path vid_path (body : P S unit) :
  (forall b, q (ProcessorInit input_path vid_path, b) = true) ->
  (forall b, q (ProcessorEnter, b) = true) ->
  (forall b, q (ProcessorExit, b) = true) ->
  only q body ->
  only q (with_processor env input_path vid_path body).
Proof.
  intros Hi He Hx Hb. unfold with_processor.
  apply only_bind; [apply only_call; apply Hi|]. intros _.
  apply only_bind; [apply only_call; apply He|]. intros _ s.
  specialize (Hb s). destruct (body s) as [[r s1] t1]. simpl in Hb.
  assert (Ht : forallb q
                 (t1 ++ [(ProcessorExit,
                          is_ok (processor_exit env (negb (is_ok r))))])
               = true).
  { rewrite forallb_app, Hb. simpl. rewrite Hx. reflexivity. }
  destruct (processor_exit env (negb (is_ok r))) as [[]|e], r;
    simpl in *; exact Ht.
Qed.

Lemma only_In {A} (m : P S A) s ev :
  only q m -> In ev (snd (m s)) -> q ev = true.
Proof.
  intros H Hin. specialize (H s). rewrite forallb_forall in H.
  apply H. exact Hin.
Qed.

End Only.

Ltac only_step :=
  first
    [ apply only_with_processor; [intros ?|intros ?|intros ?|]
    | apply only_try_finally
    | apply only_for_frames; [intros ? ?|intros ? ?]
    | apply only_write_local; intros ?
    | apply only_close_local; intros ?
    | apply only_open_writer; intros ?
    | apply only_reset; intros ?
    | apply only_process_frame; intros ?
    | apply only_if_path; intros ? ? ?
    | apply only_ret
    | apply only_lift
    | apply only_call
    | apply only_bind; [|intros ?] ].

Section Traces.

Context {ndarray KeyPoint : Type}.
Variable env : Env ndarray.
Variable np : Numeric ndarray KeyPoint.

Lemma run_trace {S A} (m : P S A) (s : S) :
  snd (run m s) = snd (m {| self := s; locals := [] |}).
Proof. unfold run. destruct (m _) as [[r s'] t]. reflexivity. Qed.

Lemma run_result {S A} (m : P S A) (s : S) :
  fst (run m s) = fst (fst (m {| self := s; locals := [] |})).
Proof. unfold run. destruct (m _) as [[r s'] t]. reflexivity. Qed.

Lemma run_outcome {S A} (m : P S A) (s : S) :
  run m s = (fst (fst (m {| self := s; locals := [] |})),
             snd (m {| self := s; locals := [] |})).
Proof. unfold run. destruct (m _) as [[r s'] t]. reflexivity. Qed.

Local Abbreviation outcome x := (fst (fst x), snd x).
Local Abbreviation no_ensure := (fun ev : Event => negb (is_ensure_call ev)).

Lemma supplied_cons path paths :
  supplied (path :: paths) = supplied [path] ++ supplied paths.
Proof.
  destruct path as [q|]; simpl; [|reflexivity].
  destruct (negb (String.eqb q "")); reflexivity.
Qed.

(** A step that makes no call of [ensure_basedir] ensures nothing, and
    does so first. *)
Lemma ensured_first_none {S} (m : P S unit) s :
  only no_ensure m -> ensured_first env [] (outcome (m s)).
Proof.
  intros Hm. left. exists (snd (m s)). split; [reflexivity | apply Hm].
Qed.

(** [if path: etau.ensure_basedir(path)] in front of a rest that ensures
    [ps] first. *)
Lemma ensured_first_ensure {S} path ps (k : unit -> P S unit) s :
  (forall s', ensured_first env ps (outcome (k tt s'))) ->
  ensured_first env (supplied [path] ++ ps)
    (outcome (bind (ensure env path) k s)).
Proof.
  intros Hk. specialize (Hk s).
  unfold ensure, if_path.
  destruct path as [q|]; simpl;
    [destruct (negb (String.eqb q "")) eqn:Ht|].
  - unfold bind, call.
    destruct (ensure_basedir env q) as [[]|e] eqn:Hq.
    + destruct (k tt s) as [[r s'] t]. simpl in *.
      destruct Hk as [(rest & Hts & Hrest)
                     |(ps1 & q' & ps2 & e & H1 & H2 & H3 & H4)].
      * simpl in Hts. left. exists rest. subst t.
        split; [reflexivity | exact Hrest].
      * simpl in H3, H4. right. exists (q :: ps1), q', ps2, e. subst t ps.
        split; [reflexivity|]. split; [exact H2|].
        split; [reflexivity | exact H4].
    + right. exists [], q, ps, e. simpl. repeat split. exact Hq.
  - unfold bind, ret. destruct (k tt s) as [[r s'] t]. exact Hk.
  - unfold bind, ret. destruct (k tt s) as [[r s'] t]. exact Hk.
Qed.

Lemma ensure_calls_precede ps rest pre ev post :
  ensure_calls ps ++ rest = pre ++ ev :: post ->
  is_ensure_call ev = false ->
  incl (ensure_calls ps) pre.
Proof.
  revert pre. induction ps as [|q ps IH]; intros pre Heq Hev.
  - intros x [].
  - destruct pre as [|a pre]; simpl in Heq.
    + injection Heq as <- _. discriminate Hev.
    + injection Heq as <- Heq. intros x [<-|Hx].
      * left. reflexivity.
      * right. apply (IH pre Heq Hev). exact Hx.
Qed.

Lemma ensure_calls_only ps q b :
  forallb is_ensure_call (ensure_calls ps ++ [(EnsureBasedir q, b)]) = true.
Proof. induction ps as [|p ps IH]; [reflexivity | exact IH]. Qed.

(** After the calls that ensure the directories comes everything else. *)
Lemma ensured_first_after ps rt p :
  ensured_first env ps rt -> In p ps -> after_ensure p (snd rt).
Proof.
  intros [(rest & Ht & _)|(ps1 & q & ps2 & e & _ & _ & Ht & _)] Hin
    pre ev post Heq Hev; rewrite Ht in Heq.
  - apply (ensure_calls_precede ps rest pre ev post Heq Hev).
    unfold ensure_calls. apply in_map_iff. exists p. split; [reflexivity|].
    exact Hin.
  - pose proof (ensure_calls_only ps1 q false) as Hall.
    rewrite Heq, forallb_app in Hall. simpl in Hall. rewrite Hev in Hall.
    rewrite andb_false_r in Hall. discriminate Hall.
Qed.

(** C8: in each of the four [process] methods the directories of the array
    path templates that are given (not [None], not empty) are ensured
    first.  The run starts with [ensure_basedir] on each given template,
    in the order of the arguments, and everything else (opening the input,
    [_reset], reading, processing or writing a frame) comes after these
    calls have returned; if [ensure_basedir] raises on a template, nothing
    else is done and the run raises that error.  So for every given
    template, whatever is done to the input or to a frame is done after
    [ensure_basedir] returned for it. *)
Theorem array_directories_ensured_first (input_path : string)
    (cart_path polar_path vid_path : option string)
    (fgmask_path fgvid_path bgvid_path masks_path coords_path
     : option string) :
  (forall S (alg : FrameAlg ndarray S ndarray) s,
     let rt := run (DenseOpticalFlow_process env np alg input_path
                      cart_path polar_path vid_path) s in
     ensured_first env (supplied [cart_path; polar_path]) rt
     /\ forall p, In p (supplied [cart_path; polar_path]) ->
                  after_ensure p (snd rt))
  /\ (forall S (alg : FrameAlg ndarray S (ndarray * ndarray)) s,
        let rt := run (BackgroundSubtractor_process env np alg input_path
                         fgmask_path fgvid_path bgvid_path) s in
        ensured_first env (supplied [fgmask_path]) rt
        /\ forall p, In p (supplied [fgmask_path]) ->
                     after_ensure p (snd rt))
  /\ (forall S (alg : FrameAlg ndarray S ndarray) s,
        let rt := run (EdgeDetector_process env np alg input_path
                         masks_path vid_path) s in
        ensured_first env (supplied [masks_path]) rt
        /\ forall p, In p (supplied [masks_path]) ->
                     after_ensure p (snd rt))
  /\ (forall S (alg : FrameAlg ndarray S (list KeyPoint)) s,
        let rt := run (FeaturePointDetector_process env np alg input_path
                         coords_path vid_path) s in
        ensured_first env (supplied [coords_path]) rt
        /\ forall p, In p (supplied [coords_path]) ->
                     after_ensure p (snd rt)).
Proof.
  assert (Hboth : forall ps rt,
            ensured_first env ps rt ->
            ensured_first env ps rt
            /\ forall p, In p ps -> after_ensure p (snd rt)).
  { intros ps rt H. split; [exact H|].
    intros p Hin. apply (ensured_first_after ps rt p H Hin). }
  split; [|split; [|split]]; intros S alg s rt; subst rt; apply Hboth;
    rewrite run_outcome.
  - rewrite (supplied_cons cart_path [polar_path]).
    rewrite <- (app_nil_r (supplied [polar_path])).
    unfold DenseOpticalFlow_process.
    apply ensured_first_ensure. intros s1.
    apply ensured_first_ensure. intros s2.
    apply ensured_first_none. unfold save.
    repeat only_step;
      try (destruct (negb (truthy polar_path) && negb (truthy vid_path));
           repeat only_step);
      reflexivity.
  - rewrite <- (app_nil_r (supplied [fgmask_path])).
    unfold BackgroundSubtractor_process, BackgroundSubtractor_finally.
    apply ensured_first_ensure. intros s1.
    apply ensured_first_none. unfold save.
    repeat only_step; reflexivity.
  - rewrite <- (app_nil_r (supplied [masks_path])).
    unfold EdgeDetector_process.
    apply ensured_first_ensure. intros s1.
    apply ensured_first_none. unfold save.
    repeat only_step; reflexivity.
  - rewrite <- (app_nil_r (supplied [coords_path])).
    unfold FeaturePointDetector_process.
    apply ensured_first_ensure. intros s1.
    apply ensured_first_none. unfold save.
    repeat only_step; reflexivity.
Qed.

Lemma released_app (t1 t2 : list Event) :
  released (t1 ++ t2) = released t1 ++ released t2.
Proof.
  induction t1 as [|[c b] t1 IH]; [reflexivity|].
  destruct c; simpl; rewrite ?IH; reflexivity.
Qed.

Lemma acquired_app (t1 t2 : list Event) :
  acquired (t1 ++ t2) = acquired t1 ++ acquired t2.
Proof.
  induction t1 as [|[c b] t1 IH]; [reflexivity|].
  destruct c, b; simpl; rewrite ?IH; reflexivity.
Qed.

Section Quiet.

Context {S : Type}.

Lemma quiet_ret {A} (a : A) : quiet (ret (S:=S) a).
Proof. intros s. repeat split. Qed.

Lemma quiet_lift {A} (r : result A) : quiet (lift (S:=S) r).
Proof. intros s. repeat split. Qed.

Lemma quiet_bind {A B} (m : P S A) (k : A -> P S B) :
  quiet m -> (forall a, quiet (k a)) -> quiet (bind m k).
Proof.
  intros Hm Hk s. unfold bind.
  specialize (Hm s). destruct (m s) as [[r s1] t1].
  simpl in Hm. destruct Hm as (Hl & Hr & Ha).
  destruct r as [a|e]; [|simpl; auto].
  specialize (Hk a s1). destruct (k a s1) as [[r2 s2] t2].
  simpl in *. destruct Hk as (Hl2 & Hr2 & Ha2).
  rewrite released_app, acquired_app, Hr, Ha, Hr2, Ha2.
  repeat split. congruence.
Qed.

Lemma quiet_if_path path (k : string -> P S unit) :
  (forall p, quiet (k p)) -> quiet (if_path path k).
Proof.
  intros Hk. unfold if_path. destruct path as [p|]; [|apply quiet_ret].
  destruct (truthy (Some p)); [apply Hk | apply quiet_ret].
Qed.

Lemma quiet_reset {R} (alg : FrameAlg ndarray S R) : quiet (reset alg).
Proof.
  intros s. unfold reset. destruct (_reset alg (self s)) as [r a].
  repeat split.
Qed.

Lemma quiet_process_frame {R} (alg : FrameAlg ndarray S R) n img :
  quiet (process_frame alg n img).
Proof.
  intros s. unfold process_frame.
  destruct (_process_frame alg (self s) img) as [r a]. repeat split.
Qed.

Lemma quiet_save template n arr : quiet (save (S:=S) env template n arr).
Proof. intros s. repeat split. Qed.

Lemma quiet_write_local h n img : quiet (write_local (S:=S) env h n img).
Proof.
  intros s. unfold write_local, bind, read_local, call.
  destruct (existsb (handle_eqb h) (locals s)); repeat split.
Qed.

Lemma quiet_for_frames h frames (body : nat -> ndarray -> P S unit) :
  (forall n img, quiet (body n img)) ->
  forall n, quiet (for_frames env h frames n body).
Proof.
  intros Hb. induction frames as [|img rest IH]; intros n.
  - intros s. repeat split.
  - simpl. apply quiet_bind; [intros s; repeat split|].
    intros _. apply quiet_bind; [apply Hb|]. intros _. apply IH.
Qed.

(** What [BackgroundSubtractor.process] does inside [try], once the
    writers are open: it is quiet. *)
Lemma quiet_subtraction_frames (alg : FrameAlg ndarray S (ndarray * ndarray))
    (fgmask_path fgvid_path bgvid_path : option string) :
  quiet
    (bind (reset alg) (fun _ =>
       for_frames env Reader (stream env) 1 (fun n img =>
         bind (process_frame alg n img) (fun fb =>
         bind (if_path fgmask_path (fun p => save env p n (fst fb))) (fun _ =>
         bind (if_path fgvid_path (fun _ =>
                 bind (lift (zero_background np img (fst fb)))
                   (fun img' => write_local env FgWriter n img')))
           (fun _ =>
         if_path bgvid_path
           (fun _ => write_local env BgWriter n (snd fb)))))))).
Proof.
  apply quiet_bind; [apply quiet_reset|]. intros _.
  apply quiet_for_frames. intros n img.
  apply quiet_bind; [apply quiet_process_frame|]. intros fb.
  apply quiet_bind;
    [apply quiet_if_path; intros p; apply quiet_save|]. intros _.
  apply quiet_bind.
  - apply quiet_if_path. intros _.
    apply quiet_bind; [apply quiet_lift|]. intros img'.
    apply quiet_write_local.
  - intros _. apply quiet_if_path. intros _. apply quiet_write_local.
Qed.

Lemma quiet_ensure path : quiet (ensure (S:=S) env path).
Proof.
  apply quiet_if_path. intros p s. repeat split.
Qed.

Lemma path_ok_truthy path (f : string -> result unit) :
  path_ok path f
  = if truthy path
    then is_ok (f (match path with Some p => p | None => "" end))
    else true.
Proof. unfold path_ok. destruct path; reflexivity. Qed.

Lemma if_path_truthy path (k : string -> P S unit) :
  if_path path k
  = if truthy path then k (match path with Some p => p | None => "" end)
    else ret tt.
Proof. unfold if_path. destruct path; reflexivity. Qed.

(** The [try ... finally] of [BackgroundSubtractor.process] around a quiet
    rest: the writers that were opened are closed, in the order in which
    they were opened, provided that closing the first does not raise. *)
Lemma try_finally_releases (rest : P S unit)
    (fgvid_path bgvid_path : option string) (s : St S) r s' t :
  quiet rest ->
  writer_close env FgWriter = Ok tt ->
  locals s = [] ->
  try_finally
    (bind (if_path fgvid_path (fun p => open_writer env FgWriter p))
       (fun _ =>
     bind (if_path bgvid_path (fun p => open_writer env BgWriter p))
       (fun _ => rest)))
    (BackgroundSubtractor_finally env fgvid_path bgvid_path) s = (r, s', t) ->
  released t = acquired t
  /\ List.filter is_writer (acquired t) = acquired t
  /\ List.NoDup (released t).
Proof.
  intros Hq Hc Hl H.
  unfold BackgroundSubtractor_finally in H.
  rewrite !if_path_truthy in H.
  unfold try_finally, bind, open_writer, close_local, read_local, call,
    bind, ret in H.
  destruct (truthy fgvid_path), (truthy bgvid_path);
    repeat match type of H with
    | context [match writer_open env ?h ?p with _ => _ end] =>
        destruct (writer_open env h p) as [[]|?]; simpl in H
    end;
    try match type of H with
    | context [rest ?s0] =>
        let Hq' := fresh "Hq'" in
        pose proof (Hq s0) as Hq';
        destruct (rest s0) as [[r1 s3] t3]; simpl in Hq';
        destruct Hq' as (Hl' & Hr' & Ha')
    end;
    repeat (progress (simpl in H; rewrite ?Hl', ?Hl, ?Hc in H));
    try match type of H with
    | context [writer_close env BgWriter] =>
        destruct (writer_close env BgWriter) as [[]|?]; simpl in H
    end;
    try (destruct r1; simpl in H);
    inversion H; subst; clear H;
    rewrite ?released_app, ?acquired_app, ?Hr', ?Ha'; simpl;
    rewrite ?released_app, ?acquired_app, ?Hr', ?Ha'; simpl.
  all: split; [reflexivity|]; split; [reflexivity|];
    repeat (apply List.NoDup_cons; [simpl; intuition discriminate|]);
    apply List.NoDup_nil.
Qed.

(** The same [try ... finally] around a rest that fails at [_reset]: the
    error comes out before any frame, and it is the error of [_reset]
    when the writers that are requested open and close. *)
Lemma try_finally_reset_raises (rest : P S unit) (e : Exn)
    (fgvid_path bgvid_path : option string) (s : St S) r s' t :
  (forall s0, exists s1,
      rest s0 = (Raise e, s1, [(Reset, false)]) /\ locals s1 = locals s0) ->
  locals s = [] ->
  try_finally
    (bind (if_path fgvid_path (fun p => open_writer env FgWriter p))
       (fun _ =>
     bind (if_path bgvid_path (fun p => open_writer env BgWriter p))
       (fun _ => rest)))
    (BackgroundSubtractor_finally env fgvid_path bgvid_path) s = (r, s', t) ->
  frameless t = true
  /\ is_ok r = false
  /\ (path_ok fgvid_path (writer_open env FgWriter)
      && path_ok bgvid_path (writer_open env BgWriter)
      && path_ok fgvid_path (fun _ => writer_close env FgWriter)
      && path_ok bgvid_path (fun _ => writer_close env BgWriter) = true ->
      r = Raise e).
Proof.
  intros Hrest Hl H.
  unfold BackgroundSubtractor_finally in H.
  rewrite !if_path_truthy in H. rewrite !path_ok_truthy.
  unfold try_finally, bind, open_writer, close_local, read_local, call,
    bind, ret in H.
  destruct (truthy fgvid_path), (truthy bgvid_path);
    repeat match type of H with
    | context [match writer_open env ?h ?p with _ => _ end] =>
        destruct (writer_open env h p) as [[]|?]; simpl in H
    end;
    try match type of H with
    | context [rest ?s0] =>
        let s1 := fresh "s1" in
        let Hs1 := fresh "Hs1" in
        let Hl' := fresh "Hl'" in
        destruct (Hrest s0) as (s1 & Hs1 & Hl');
        rewrite Hs1 in H; simpl in Hl'
    end;
    repeat (progress (simpl in H; rewrite ?Hl', ?Hl in H));
    repeat match type of H with
    | context [writer_close env ?h] =>
        destruct (writer_close env h) as [[]|?]; simpl in H
    end;
    inversion H; subst; clear H; simpl;
    repeat split; try reflexivity; try discriminate;
    intros Hx; rewrite ?andb_false_r in Hx; discriminate.
Qed.

(** C1, as amended: in every run of [BackgroundSubtractor.process] in
    which closing the foreground writer does not itself raise, whatever
    else fails (reading a frame, [_process_frame], a write), the writers
    that were opened are closed before [process] returns or raises, each
    exactly once, in the order in which they were opened: the foreground
    writer, then the background writer. *)
Theorem writers_closed_once_in_order
    (alg : FrameAlg ndarray S (ndarray * ndarray)) (s : S)
    (input_path : string) (fgmask_path fgvid_path bgvid_path : option string) :
  writer_close env FgWriter = Ok tt ->
  let t := snd (run (BackgroundSubtractor_process env np alg input_path
                       fgmask_path fgvid_path bgvid_path) s) in
  released t = List.filter is_writer (acquired t)
  /\ List.NoDup (released t).
Proof.
  intros Hc t. subst t. rewrite run_trace.
  destruct (BackgroundSubtractor_process env np alg input_path fgmask_path
              fgvid_path bgvid_path {| self := s; locals := [] |})
    as [[r s'] t] eqn:E.
  simpl. unfold BackgroundSubtractor_process in E.
  unfold bind at 1 in E.
  pose proof (quiet_ensure fgmask_path {| self := s; locals := [] |}) as Hq.
  destruct (ensure env fgmask_path {| self := s; locals := [] |})
    as [[r1 s1] t1].
  simpl in Hq. destruct Hq as (Hl1 & Hr1 & Ha1).
  destruct r1 as [[]|e1].
  2:{ inversion E; subst. rewrite Hr1, Ha1.
      split; [reflexivity | apply List.NoDup_nil]. }
  unfold bind at 1 in E. unfold call at 1 in E.
  destruct (reader_open env input_path) as [[]|e2]; simpl in E.
  - match type of E with
    | context [try_finally ?b ?f ?s0] =>
        destruct (try_finally b f s0) as [[r2 s2] t2] eqn:E2
    end.
    apply try_finally_releases in E2;
      [|apply quiet_subtraction_frames | exact Hc | exact Hl1].
    destruct E2 as (Hrel & Hw & Hnd).
    inversion E; subst.
    rewrite released_app, acquired_app, Hr1, Ha1. simpl.
    rewrite Hw. split; assumption.
  - inversion E; subst.
    rewrite released_app, acquired_app, Hr1, Ha1. simpl.
    split; [reflexivity | apply List.NoDup_nil].
Qed.

(** A [process] whose [_reset] raises [e]: no frame is read, processed or
    written, [process] raises, and what it raises is [e] when the setup
    that the arguments ask for goes well. *)
Lemma reset_raises_before_frames
    (alg : FrameAlg ndarray S (ndarray * ndarray)) (e : Exn) (s : S)
    (input_path : string) (fgmask_path fgvid_path bgvid_path : option string) :
  (forall a, fst (_reset alg a) = Raise e) ->
  let rt := run (BackgroundSubtractor_process env np alg input_path
                   fgmask_path fgvid_path bgvid_path) s in
  (forall ev, In ev (snd rt) -> frame_event ev = false)
  /\ is_ok (fst rt) = false
  /\ (requested_setup_ok env input_path fgmask_path fgvid_path bgvid_path
      = true ->
      fst rt = Raise e).
Proof.
  intros Hreset rt.
  assert (Hgoal : frameless (snd rt) = true
                  /\ is_ok (fst rt) = false
                  /\ (requested_setup_ok env input_path fgmask_path
                        fgvid_path bgvid_path = true ->
                      fst rt = Raise e)).
  { subst rt. rewrite run_trace, run_result.
    destruct (BackgroundSubtractor_process env np alg input_path fgmask_path
                fgvid_path bgvid_path {| self := s; locals := [] |})
      as [[r s'] t] eqn:E.
    simpl. unfold BackgroundSubtractor_process in E. unfold requested_setup_ok.
    assert (Hrest : forall s0 : St S, exists s1,
               bind (reset alg) (fun _ =>
                 for_frames env Reader (stream env) 1 (fun n img =>
                   bind (process_frame alg n img) (fun fb =>
                   bind (if_path fgmask_path
                           (fun p => save env p n (fst fb))) (fun _ =>
                   bind (if_path fgvid_path (fun _ =>
                           bind (lift (zero_background np img (fst fb)))
                             (fun img' => write_local env FgWriter n img')))
                     (fun _ =>
                   if_path bgvid_path
                     (fun _ => write_local env BgWriter n (snd fb))))))) s0
               = (Raise e, s1, [(Reset, false)])
               /\ locals s1 = locals s0).
    { intros s0. unfold bind at 1, reset.
      specialize (Hreset (self s0)).
      destruct (_reset alg (self s0)) as [r0 a]. simpl in Hreset. subst r0.
      eexists. split; reflexivity. }
    unfold bind at 1 in E.
    unfold ensure in E. rewrite if_path_truthy in E. rewrite path_ok_truthy.
    destruct (truthy fgmask_path).
    - unfold call at 1 in E.
      destruct (ensure_basedir env _) as [[]|e1]; simpl in *;
        [|inversion E; subst; repeat split; discriminate].
      unfold bind at 1 in E. unfold call at 1 in E.
      destruct (reader_open env input_path) as [[]|e2]; simpl in E;
        [|inversion E; subst; repeat split; discriminate].
      match type of E with
      | context [try_finally ?b ?f ?s0] =>
          destruct (try_finally b f s0) as [[r2 s2] t2] eqn:E2
      end.
      apply (try_finally_reset_raises _ e) in E2;
        [|exact Hrest|reflexivity].
      destruct E2 as (Hf & Hr & He). inversion E; subst.
      repeat split; assumption.
    - unfold ret in E. unfold bind at 1 in E. unfold call at 1 in E.
      destruct (reader_open env input_path) as [[]|e2]; simpl in E;
        [|inversion E; subst; repeat split; discriminate].
      match type of E with
      | context [try_finally ?b ?f ?s0] =>
          destruct (try_finally b f s0) as [[r2 s2] t2] eqn:E2
      end.
      apply (try_finally_reset_raises _ e) in E2;
        [|exact Hrest|reflexivity].
      destruct E2 as (Hf & Hr & He). inversion E; subst.
      repeat split; assumption. }
  destruct Hgoal as (Hf & Hr & He). split; [|split; assumption].
  intros ev Hin. unfold frameless in Hf.
  rewrite forallb_forall in Hf. specialize (Hf ev Hin).
  destruct (frame_event ev); [discriminate | reflexivity].
Qed.

End Quiet.

End Traces.

Section Algorithms.

Context {ndarray KeyPoint Subtractor float : Type}.
Variable env : Env ndarray.
Variable np : Numeric ndarray KeyPoint.
Variable cv2 : CV2 ndarray Subtractor float.

(** C5, as amended: when the installed OpenCV lacks the factory of the
    subtractor (the OpenCV 2 case, whose subtractors cannot return a
    background image), [process] of the MOG2 and of the KNN variant reads,
    processes and writes no frame, and raises; what it raises is
    [BackgroundSubtractorError] when the steps around [_reset] that the
    arguments ask for go well: ensuring the mask directory, opening the
    reader, and opening and closing each video writer that is
    requested. *)
Theorem unsupported_backend_raises_before_frames
    (s : Subtraction Subtractor float) (input_path : string)
    (fgmask_path fgvid_path bgvid_path : option string) :
  (createBackgroundSubtractorMOG2 cv2 = None ->
   let rt := run (BackgroundSubtractor_process env np
                    (MOG2BackgroundSubtractor cv2) input_path
                    fgmask_path fgvid_path bgvid_path) s in
   (forall ev, In ev (snd rt) -> frame_event ev = false)
   /\ is_ok (fst rt) = false
   /\ (requested_setup_ok env input_path fgmask_path fgvid_path bgvid_path
       = true ->
       fst rt = Raise BackgroundSubtractorError))
  /\ (createBackgroundSubtractorKNN cv2 = None ->
      let rt := run (BackgroundSubtractor_process env np
                       (KNNBackgroundSubtractor cv2) input_path
                       fgmask_path fgvid_path bgvid_path) s in
      (forall ev, In ev (snd rt) -> frame_event ev = false)
      /\ is_ok (fst rt) = false
      /\ (requested_setup_ok env input_path fgmask_path fgvid_path bgvid_path
          = true ->
          fst rt = Raise BackgroundSubtractorError)).
Proof.
  split; intros Hnone; apply reset_raises_before_frames; intros a; simpl;
    rewrite Hnone; reflexivity.
Qed.

(** Once a frame is stored, the flow of the next frame is estimated
    against it. *)
Lemma later_frame_flow_against_previous
    (s : Farneback ndarray float) (prev img : ndarray) :
  _prev_frame s = Some prev ->
  fst (_process_frame (FarnebackDenseOpticalFlow np cv2) s img)
  = rbind (cvtColor_BGR2GRAY np img)
      (fun gray => farneback_flow cv2 s prev gray).
Proof.
  intros Hp. simpl. unfold Farneback_process_frame.
  destruct (cvtColor_BGR2GRAY np img) as [gray|e]; [|reflexivity].
  rewrite Hp. simpl. rewrite Hp.
  destruct (farneback_flow cv2 s prev gray); reflexivity.
Qed.

(** C6: [_reset] leaves the Farneback estimator without a previous frame,
    whatever it had seen; the first [_process_frame] after it returns the
    flow estimated between the (grayscale) frame and itself, and stores
    that frame as the previous one. *)
Theorem first_frame_flow_against_itself
    (s : Farneback ndarray float) (img : ndarray) :
  let alg := FarnebackDenseOpticalFlow np cv2 in
  let s0 := snd (_reset alg s) in
  fst (_reset alg s) = Ok tt
  /\ _prev_frame s0 = None
  /\ fst (_process_frame alg s0 img)
     = rbind (cvtColor_BGR2GRAY np img)
         (fun gray => farneback_flow cv2 s gray gray)
  /\ _prev_frame (snd (_process_frame alg s0 img))
     = match cvtColor_BGR2GRAY np img with
       | Ok gray => Some gray
       | Raise _ => None
       end.
Proof.
  simpl. unfold Farneback_process_frame.
  split; [reflexivity|]. split; [reflexivity|].
  destruct (cvtColor_BGR2GRAY np img) as [gray|e]; simpl;
    [|split; reflexivity].
  change (farneback_flow cv2
            (set_prev_frame (set_prev_frame s None) (Some gray)) gray gray)
    with (farneback_flow cv2 s gray gray).
  destruct (farneback_flow cv2 s gray gray); split; reflexivity.
Qed.

End Algorithms.

Import Examples.

(** A run with two frames, both videos requested, in which every
    collaborator returns. *)
Lemma writers_closed_once_in_order_witness :
  writer_close studio FgWriter = Ok tt
  /\ (let t := snd (run (BackgroundSubtractor_process studio arrays
                           (MOG2BackgroundSubtractor opencv3) "in.mp4"
                           (Some "masks/%05d.npy") (Some "fg.mp4")
                           (Some "bg.mp4")) subtraction) in
      released t = List.filter is_writer (acquired t)
      /\ List.NoDup (released t)).
Proof.
  split; [reflexivity|].
  apply (writers_closed_once_in_order studio arrays
           (MOG2BackgroundSubtractor opencv3) subtraction "in.mp4"
           (Some "masks/%05d.npy") (Some "fg.mp4") (Some "bg.mp4")).
  reflexivity.
Defined.

(** C1 as stated fails on a run that completes normally with both videos
    requested: the reader, the foreground writer and the background writer
    are acquired in this order; the writers are closed foreground first,
    in the order of acquisition, not in reverse, and [process] never closes
    the reader. *)
Lemma released_in_reverse_counterexample :
  let rt := run (BackgroundSubtractor_process studio arrays
                   (MOG2BackgroundSubtractor opencv3) "in.mp4"
                   None (Some "fg.mp4") (Some "bg.mp4")) subtraction in
  fst rt = Ok tt
  /\ acquired (snd rt) = [Reader; FgWriter; BgWriter]
  /\ released (snd rt) = [FgWriter; BgWriter]
  /\ released (snd rt) <> rev (acquired (snd rt))
  /\ ~ In Reader (released (snd rt)).
Proof.
  vm_compute. repeat split; try discriminate.
  intros [H|[H|[]]]; discriminate H.
Qed.

(** Without the factory, with the masks and the foreground video
    requested in a studio where everything else works. *)
Lemma unsupported_backend_raises_before_frames_witness :
  createBackgroundSubtractorMOG2 opencv2 = None
  /\ requested_setup_ok studio "in.mp4" (Some "masks/%05d.npy")
       (Some "fg.mp4") None = true
  /\ (let rt := run (BackgroundSubtractor_process studio arrays
                       (MOG2BackgroundSubtractor opencv2) "in.mp4"
                       (Some "masks/%05d.npy") (Some "fg.mp4") None)
                  subtraction in
      (forall ev, In ev (snd rt) -> frame_event ev = false)
      /\ is_ok (fst rt) = false
      /\ fst rt = Raise BackgroundSubtractorError).
Proof.
  split; [reflexivity|]. split; [reflexivity|].
  pose proof (proj1 (unsupported_backend_raises_before_frames studio arrays
                       opencv2 subtraction "in.mp4" (Some "masks/%05d.npy")
                       (Some "fg.mp4") None) eq_refl) as H.
  destruct H as (Hf & Hr & He).
  split; [exact Hf|]. split; [exact Hr | exact (He eq_refl)].
Defined.

(** C5 as stated fails: without the factory, [process] does not always
    raise [BackgroundSubtractorError].  When closing the background writer
    raises, the error of [close] replaces the one of [_reset]; when the
    foreground writer cannot be opened, [_reset] is not reached and the
    [finally] block raises [UnboundLocalError]. *)
Lemma unsupported_backend_other_error_counterexample :
  createBackgroundSubtractorMOG2 opencv2 = None
  /\ run (BackgroundSubtractor_process studio_close_fails arrays
            (MOG2BackgroundSubtractor opencv2) "in.mp4"
            None None (Some "bg.mp4")) subtraction
     = (Raise (ExternalError 9),
        [(OpenReader "in.mp4", true); (OpenWriter BgWriter "bg.mp4", true);
         (Reset, false); (Close BgWriter, false)])
  /\ run (BackgroundSubtractor_process (studio_without FgWriter) arrays
            (MOG2BackgroundSubtractor opencv2) "in.mp4"
            None (Some "fg.mp4") None) subtraction
     = (Raise (UnboundLocalError "fgw"),
        [(OpenReader "in.mp4", true); (OpenWriter FgWriter "fg.mp4", false)])
  /\ Raise (ExternalError 9) <> Raise (A:=unit) BackgroundSubtractorError
  /\ Raise (UnboundLocalError "fgw")
     <> Raise (A:=unit) BackgroundSubtractorError.
Proof.
  split; [reflexivity|]. split; [reflexivity|]. split; [reflexivity|].
  split; discriminate.
Qed.

(** On the stand-in OpenCV, where the flow is the difference of the two
    frames: an estimator that has seen frame 7 gives, after [_reset], the
    zero flow for frame 10. *)
Example first_frame_after_reset :
  let alg := FarnebackDenseOpticalFlow arrays opencv3 in
  fst (_process_frame alg (snd (_reset alg farneback)) 10) = Ok 0
  /\ fst (_process_frame alg farneback 10) = Ok 3.
Proof. split; reflexivity. Qed.

(** Both array outputs requested, on an input without a frame: the two
    directories are ensured, then the rest of the run follows. *)
Lemma array_directories_ensured_first_witness :
  supplied [Some "cart/%05d.npy"; Some "flow/%05d.npy"]
  = ["cart/%05d.npy"; "flow/%05d.npy"]
  /\ (let rt := run (DenseOpticalFlow_process studio_empty arrays
                       (FarnebackDenseOpticalFlow arrays opencv3) "in.mp4"
                       (Some "cart/%05d.npy") (Some "flow/%05d.npy")
                       (Some "out.mp4")) farneback in
      ensured_first studio_empty ["cart/%05d.npy"; "flow/%05d.npy"] rt
      /\ (forall p, In p ["cart/%05d.npy"; "flow/%05d.npy"] ->
                    after_ensure p (snd rt)))
  /\ snd (run (DenseOpticalFlow_process studio_empty arrays
                 (FarnebackDenseOpticalFlow arrays opencv3) "in.mp4"
                 (Some "cart/%05d.npy") (Some "flow/%05d.npy")
                 (Some "out.mp4")) farneback)
     = [(EnsureBasedir "cart/%05d.npy", true);
        (EnsureBasedir "flow/%05d.npy", true);
        (Reset, true);
        (ProcessorInit "in.mp4" (Some "out.mp4"), true);
        (ProcessorEnter, true);
        (Next Processor 1, false);
        (ProcessorExit, true)].
Proof.
  split; [reflexivity|]. split; [|reflexivity].
  apply (proj1 (array_directories_ensured_first studio_empty arrays "in.mp4"
                  (Some "cart/%05d.npy") (Some "flow/%05d.npy")
                  (Some "out.mp4") None None None None None)).
Defined.

(** In a studio where no directory can be created the run fails fast: it
    raises the error of [ensure_basedir] on the first template and does
    nothing else; the second template is not reached. *)
Example array_directories_fail_fast :
  run (DenseOpticalFlow_process studio_readonly arrays
         (FarnebackDenseOpticalFlow arrays opencv3) "in.mp4"
         (Some "cart/%05d.npy") (Some "flow/%05d.npy") (Some "out.mp4"))
    farneback
  = (Raise (ExternalError 30), [(EnsureBasedir "cart/%05d.npy", false)]).
Proof. reflexivity. Qed.

End PrimitivesProps.

(** * Further properties of eta/core/data.py *)

Module DataMore.
Import Py Data DataProps.

Section Heap.

Context {Rec : Type}.
Implicit Types (h : list (obj Rec)) (cls : Class Rec) (xs : list Rec).

Lemma lookup_ext h ext k : (h ++ ext) !! (length h + k) = ext !! k.
Proof.
  rewrite lookup_app_r by lia.
  replace (length h + k - length h) with k by lia. reflexivity.
Qed.

Lemma insert_ext h ext k (o : obj Rec) :
  <[length h + k := o]> (h ++ ext) = h ++ <[k := o]> ext.
Proof.
  rewrite insert_app_r_alt by lia.
  replace (length h + k - length h) with k by lia. reflexivity.
Qed.

Lemma inst_list_distinct h self cls d xs :
  h !! self = Some (OInst cls d) -> h !! d = Some (OList xs) -> self <> d.
Proof. intros Hs Hd ->. rewrite Hs in Hd. discriminate. Qed.

Lemma add_run h self cls d xs x :
  h !! self = Some (OInst cls d) -> h !! d = Some (OList xs) ->
  add self x h = Some (Ok tt, <[d := OList (xs ++ [x])]> h).
Proof.
  intros Hs Hd. unfold add, bind, get_inst, get_list, set_list.
  rewrite Hs. simpl. rewrite Hd. simpl. rewrite Hd. reflexivity.
Qed.

Lemma iter_run h self cls d xs :
  h !! self = Some (OInst cls d) -> h !! d = Some (OList xs) ->
  __iter__ self h = Some (Ok xs, h).
Proof.
  intros Hs Hd. unfold __iter__, bind, get_inst, get_list.
  rewrite Hs. simpl. rewrite Hd. reflexivity.
Qed.

Lemma num_run h self cls d xs :
  h !! self = Some (OInst cls d) -> h !! d = Some (OList xs) ->
  num self h = Some (Ok (length xs), h).
Proof.
  intros Hs Hd. unfold num, bind, get_inst, get_list, ret.
  rewrite Hs. simpl. rewrite Hd. reflexivity.
Qed.

(** X1: [add] appends the instance at the end of the list the container
    refers to, in place: afterwards iterating the container yields the old
    records followed by the new one, [num] is one more, and no other
    object has changed. *)
Theorem add_appends_in_place h self cls d xs x :
  h !! self = Some (OInst cls d) ->
  h !! d = Some (OList xs) ->
  exists h',
    add self x h = Some (Ok tt, h')
    /\ __iter__ self h' = Some (Ok (xs ++ [x]), h')
    /\ num self h' = Some (Ok (Datatypes.S (length xs)), h')
    /\ length h' = length h
    /\ forall i, i <> d -> h' !! i = h !! i.
Proof.
  intros Hs Hd. exists (<[d := OList (xs ++ [x])]> h).
  pose proof (inst_list_distinct h self cls d xs Hs Hd) as Hne.
  assert (Hs' : <[d := OList (xs ++ [x])]> h !! self = Some (OInst cls d))
    by (rewrite list_lookup_insert_ne by congruence; exact Hs).
  assert (Hd' : <[d := OList (xs ++ [x])]> h !! d = Some (OList (xs ++ [x])))
    by (apply list_lookup_insert_eq; apply lookup_lt_Some in Hd; exact Hd).
  split; [apply (add_run h self cls d xs x Hs Hd)|].
  split; [apply (iter_run _ self cls d _ Hs' Hd')|].
  split.
  - rewrite (num_run _ self cls d _ Hs' Hd').
    rewrite length_app. simpl.
    replace (length xs + 1) with (Datatypes.S (length xs)) by lia.
    reflexivity.
  - split; [apply length_insert|].
    intros i Hi. apply list_lookup_insert_ne. congruence.
Qed.

Lemma init_nonempty h cls l x xs :
  _DATA_CLS cls <> None ->
  h !! l = Some (OList (x :: xs)) ->
  __init__ cls (Some l) h = Some (Ok (length h), h ++ [OInst cls l]).
Proof.
  intros Hb Hl.
  unfold __init__, bind, _validate, data_or_empty, bind, get_list, ret, alloc.
  destruct (_DATA_CLS cls); [|congruence]. rewrite Hl. reflexivity.
Qed.

Lemma init_empty h cls data :
  _DATA_CLS cls <> None ->
  (data = None \/ exists l, data = Some l /\ h !! l = Some (OList [])) ->
  __init__ cls data h
  = Some (Ok (length h + 1), h ++ [OList []; OInst cls (length h + 0)]).
Proof.
  intros Hb Hdata.
  unfold __init__, bind, _validate, data_or_empty, bind, get_list, ret, alloc.
  destruct (_DATA_CLS cls); [|congruence].
  destruct Hdata as [->|(l & -> & Hl)]; [|rewrite Hl];
    rewrite length_app, <- app_assoc; simpl;
    replace (length h + 0) with (length h) by lia; reflexivity.
Qed.

(** X2: the constructor keeps a non-empty list by reference.  Two
    containers built from the same non-empty list share it: a record added
    to one is seen by the other, and by the list itself. *)
Theorem constructor_shares_nonempty_list h cls l x xs y :
  _DATA_CLS cls <> None ->
  h !! l = Some (OList (x :: xs)) ->
  exists c1 h1 c2 h2 h3,
    __init__ cls (Some l) h = Some (Ok c1, h1)
    /\ __init__ cls (Some l) h1 = Some (Ok c2, h2)
    /\ c1 <> c2
    /\ add c1 y h2 = Some (Ok tt, h3)
    /\ __iter__ c2 h3 = Some (Ok ((x :: xs) ++ [y]), h3)
    /\ h3 !! l = Some (OList ((x :: xs) ++ [y])).
Proof.
  intros Hb Hl.
  pose proof (lookup_lt_Some _ _ _ Hl) as Hlt.
  set (h1 := h ++ [OInst cls l]).
  set (h2 := h1 ++ [OInst cls l]).
  assert (Hl1 : h1 !! l = Some (OList (x :: xs))) by (apply lookup_old; exact Hl).
  assert (Hl2 : h2 !! l = Some (OList (x :: xs))) by (apply lookup_old; exact Hl1).
  assert (Hc1 : h2 !! length h = Some (OInst cls l)).
  { apply lookup_old. apply lookup_fresh. }
  assert (Hc2 : h2 !! length h1 = Some (OInst cls l)) by apply lookup_fresh.
  assert (Hlen : length h1 = Datatypes.S (length h)).
  { unfold h1. rewrite length_app. simpl. lia. }
  exists (length h), h1, (length h1), h2,
    (<[l := OList ((x :: xs) ++ [y])]> h2).
  split; [apply (init_nonempty h cls l x xs Hb Hl)|].
  split; [apply (init_nonempty h1 cls l x xs Hb Hl1)|].
  split; [lia|].
  split; [apply (add_run h2 (length h) cls l (x :: xs) y Hc1 Hl2)|].
  assert (Hl3 : <[l := OList ((x :: xs) ++ [y])]> h2 !! l
                = Some (OList ((x :: xs) ++ [y]))).
  { apply list_lookup_insert_eq. apply lookup_lt_Some in Hl2. exact Hl2. }
  split; [|exact Hl3].
  apply (iter_run _ (length h1) cls l); [|exact Hl3].
  rewrite list_lookup_insert_ne by lia. exact Hc2.
Qed.

(** X3: the constructor replaces a missing or empty list by a new empty
    list ([data or []]).  Two containers built from the same empty list
    share nothing: a record added to one is seen neither by the other nor
    by the list that was passed. *)
Theorem constructor_copies_empty_list h cls data y :
  _DATA_CLS cls <> None ->
  (data = None \/ exists l, data = Some l /\ h !! l = Some (OList [])) ->
  exists c1 h1 c2 h2 h3,
    __init__ cls data h = Some (Ok c1, h1)
    /\ __init__ cls data h1 = Some (Ok c2, h2)
    /\ add c1 y h2 = Some (Ok tt, h3)
    /\ __iter__ c1 h3 = Some (Ok [y], h3)
    /\ __iter__ c2 h3 = Some (Ok [], h3)
    /\ forall l, data = Some l -> h3 !! l = Some (OList []).
Proof.
  intros Hb Hdata.
  set (h1 := h ++ [OList []; OInst cls (length h + 0)]).
  set (h2 := h1 ++ [OList []; OInst cls (length h1 + 0)]).
  assert (Hdata1 : data = None
                   \/ exists l, data = Some l /\ h1 !! l = Some (OList [])).
  { destruct Hdata as [->|(l & -> & Hl)]; [left; reflexivity|].
    right. exists l. split; [reflexivity | apply lookup_old; exact Hl]. }
  assert (Hlen1 : length h1 = length h + 2).
  { unfold h1. rewrite length_app. reflexivity. }
  assert (Hd1 : h2 !! (length h + 0) = Some (OList (Rec:=Rec) [])).
  { apply lookup_old. unfold h1. rewrite lookup_ext. reflexivity. }
  assert (Hc1 : h2 !! (length h + 1) = Some (OInst cls (length h + 0))).
  { apply lookup_old. unfold h1. rewrite lookup_ext. reflexivity. }
  assert (Hd2 : h2 !! (length h1 + 0) = Some (OList (Rec:=Rec) [])).
  { unfold h2. rewrite lookup_ext. reflexivity. }
  assert (Hc2 : h2 !! (length h1 + 1) = Some (OInst cls (length h1 + 0))).
  { unfold h2. rewrite lookup_ext. reflexivity. }
  set (h3 := <[length h + 0 := OList ([] ++ [y])]> h2).
  exists (length h + 1), h1, (length h1 + 1), h2, h3.
  split; [apply (init_empty h cls data Hb Hdata)|].
  split; [apply (init_empty h1 cls data Hb Hdata1)|].
  split; [apply (add_run h2 _ cls _ [] y Hc1 Hd1)|].
  split.
  { apply (iter_run h3 _ cls (length h + 0)).
    - unfold h3. rewrite list_lookup_insert_ne by lia. exact Hc1.
    - unfold h3. apply list_lookup_insert_eq.
      apply lookup_lt_Some in Hd1. exact Hd1. }
  split.
  { apply (iter_run h3 _ cls (length h1 + 0)).
    - unfold h3. rewrite list_lookup_insert_ne by lia. exact Hc2.
    - unfold h3. rewrite list_lookup_insert_ne by lia. exact Hd2. }
  intros l ->. destruct Hdata as [Hn|(l' & Hl' & Hl)]; [discriminate|].
  injection Hl' as <-.
  unfold h3. rewrite list_lookup_insert_ne.
  - apply lookup_old. apply lookup_old. exact Hl.
  - apply lookup_lt_Some in Hl. lia.
Qed.

(** X4: the container [get_matches] returns shares no list with the
    receiver: adding a record to the result leaves the records of the
    receiver as they were, and adding a record to the receiver leaves
    those of the result as they were. *)
Theorem get_matches_result_is_independent h self cls xs filters match_ y :
  container_at h self cls xs ->
  exists r h1,
    get_matches self filters match_ h = Some (Ok r, h1)
    /\ (exists h2,
          add r y h1 = Some (Ok tt, h2)
          /\ container_at h2 r cls (selected filters match_ xs ++ [y])
          /\ container_at h2 self cls xs)
    /\ (exists h2,
          add self y h1 = Some (Ok tt, h2)
          /\ container_at h2 self cls (xs ++ [y])
          /\ container_at h2 r cls (selected filters match_ xs)).
Proof.
  intros Hc.
  destruct (get_matches_run h self cls xs filters match_ Hc)
    as (r & d & ext & Hrun & Hr & Hd & Hld & Hlr).
  destruct Hc as (d0 & Hs0 & Hd0 & Hb).
  pose proof (lookup_lt_Some _ _ _ Hs0) as Hlt_s.
  pose proof (lookup_lt_Some _ _ _ Hd0) as Hlt_d.
  pose proof (lookup_lt_Some _ _ _ Hd) as Hlt_d1.
  assert (Hs1 : (h ++ ext) !! self = Some (OInst cls d0))
    by (apply lookup_old; exact Hs0).
  assert (Hd1 : (h ++ ext) !! d0 = Some (OList xs))
    by (apply lookup_old; exact Hd0).
  pose proof (lookup_lt_Some _ _ _ Hd1) as Hlt_d0.
  pose proof (inst_list_distinct _ _ _ _ _ Hr Hd) as Hrd.
  pose proof (inst_list_distinct _ _ _ _ _ Hs1 Hd1) as Hsd.
  exists r, (h ++ ext). split; [exact Hrun|]. split.
  - exists (<[d := OList (selected filters match_ xs ++ [y])]> (h ++ ext)).
    split; [apply (add_run _ r cls d _ y Hr Hd)|]. split.
    + exists d. split; [rewrite list_lookup_insert_ne by congruence; exact Hr|].
      split; [apply list_lookup_insert_eq; exact Hlt_d1 | exact Hb].
    + exists d0. split; [rewrite list_lookup_insert_ne by lia; exact Hs1|].
      split; [rewrite list_lookup_insert_ne by lia; exact Hd1 | exact Hb].
  - exists (<[d0 := OList (xs ++ [y])]> (h ++ ext)).
    split; [apply (add_run _ self cls d0 _ y Hs1 Hd1)|]. split.
    + exists d0.
      split; [rewrite list_lookup_insert_ne by congruence; exact Hs1|].
      split; [apply list_lookup_insert_eq; exact Hlt_d0 | exact Hb].
    + exists d. split; [rewrite list_lookup_insert_ne by lia; exact Hr|].
      split; [rewrite list_lookup_insert_ne by lia; exact Hd | exact Hb].
Qed.

Lemma count_matches_run h self cls xs filters match_ :
  container_at h self cls xs ->
  exists ext,
    count_matches self filters match_ h
    = Some (Ok (length (selected filters match_ xs)), h ++ ext).
Proof.
  intros Hc.
  destruct (get_matches_run h self cls xs filters match_ Hc)
    as (r & d & ext & Hrun & Hr & Hd & _).
  exists ext. unfold count_matches, bind. rewrite Hrun.
  unfold get_inst. rewrite Hr. simpl.
  unfold get_list. rewrite Hd. reflexivity.
Qed.

Lemma selected_sublist filters match_ xs :
  sublist (selected filters match_ xs) xs.
Proof.
  unfold selected. induction xs as [|x xs IH]; simpl.
  - constructor.
  - destruct (match_ (map (fun f => f x) filters)).
    + apply sublist_skip. exact IH.
    + apply sublist_cons. exact IH.
Qed.

(** X5: the records [get_matches] returns are records of the receiver, in
    the order in which the receiver holds them (a subsequence), and
    [count_matches] is their number, which is at most [num]. *)
Theorem get_matches_keeps_order h self cls xs filters match_ :
  container_at h self cls xs ->
  exists ys n h',
    records_of (get_matches self filters match_) h = Some ys
    /\ sublist ys xs
    /\ count_matches self filters match_ h = Some (Ok n, h')
    /\ n = length ys
    /\ num self h = Some (Ok (length xs), h)
    /\ n <= length xs.
Proof.
  intros Hc.
  destruct (count_matches_run h self cls xs filters match_ Hc) as (ext & Hn).
  exists (selected filters match_ xs), (length (selected filters match_ xs)),
    (h ++ ext).
  split; [apply (get_matches_records h self cls); exact Hc|].
  split; [apply selected_sublist|].
  split; [exact Hn|]. split; [reflexivity|].
  split.
  - destruct Hc as (d & Hs & Hd & _). apply (num_run h self cls d xs Hs Hd).
  - apply sublist_length. apply selected_sublist.
Qed.

Lemma selected_all_app (fs1 fs2 : list (Rec -> bool)) xs :
  selected fs2 all (selected fs1 all xs) = selected (fs1 ++ fs2) all xs.
Proof.
  unfold selected, all. induction xs as [|x xs IH]; [reflexivity|].
  simpl. rewrite map_app, forallb_app.
  destruct (forallb (fun b => b) (map (fun f => f x) fs1)); simpl.
  - rewrite IH. reflexivity.
  - exact IH.
Qed.

Lemma selected_comm (fs1 fs2 : list (Rec -> bool)) m1 m2 xs :
  selected fs2 m2 (selected fs1 m1 xs) = selected fs1 m1 (selected fs2 m2 xs).
Proof.
  unfold selected. induction xs as [|x xs IH]; [reflexivity|]. simpl.
  destruct (m1 (map (fun f => f x) fs1)) eqn:H1,
    (m2 (map (fun f => f x) fs2)) eqn:H2;
    simpl; rewrite ?H1, ?H2, IH; reflexivity.
Qed.

Lemma records_of_chain h self cls xs fs1 m1 fs2 m2 :
  container_at h self cls xs ->
  records_of (bind (get_matches self fs1 m1)
                (fun r => get_matches r fs2 m2)) h
  = Some (selected fs2 m2 (selected fs1 m1 xs)).
Proof.
  intros Hc.
  destruct (get_matches_run h self cls xs fs1 m1 Hc)
    as (r & d & ext & Hrun & Hr & Hd & _).
  assert (Hc1 : container_at (h ++ ext) r cls (selected fs1 m1 xs)).
  { exists d. split; [exact Hr|]. split; [exact Hd|].
    destruct Hc as (? & ? & ? & Hb). exact Hb. }
  pose proof (get_matches_records _ r cls _ fs2 m2 Hc1) as Hrec.
  unfold records_of, bind in *. rewrite Hrun. exact Hrec.
Qed.

(** X6: filtering twice.  Calling [get_matches] on the result of
    [get_matches] selects the records that pass both selections, whatever
    the order of the two calls; with [all] both times, that is one call
    with the two lists of predicates concatenated. *)
Theorem get_matches_composes h self cls xs fs1 m1 fs2 m2 :
  container_at h self cls xs ->
  records_of (bind (get_matches self fs1 m1)
                (fun r => get_matches r fs2 m2)) h
  = records_of (bind (get_matches self fs2 m2)
                  (fun r => get_matches r fs1 m1)) h
  /\ records_of (bind (get_matches self fs1 all)
                   (fun r => get_matches r fs2 all)) h
     = records_of (get_matches self (fs1 ++ fs2) all) h
  /\ forall x,
       (exists ys,
          records_of (bind (get_matches self fs1 m1)
                        (fun r => get_matches r fs2 m2)) h = Some ys
          /\ In x ys)
       <-> (exists y1 y2,
              records_of (get_matches self fs1 m1) h = Some y1
              /\ records_of (get_matches self fs2 m2) h = Some y2
              /\ In x y1 /\ In x y2).
Proof.
  intros Hc.
  rewrite !(records_of_chain h self cls xs) by exact Hc.
  rewrite !(get_matches_records h self cls xs) by exact Hc.
  split; [rewrite selected_comm; reflexivity|].
  split; [rewrite selected_all_app; reflexivity|].
  intros x. split.
  - intros (ys & Hys & Hin). injection Hys as <-.
    apply selected_In in Hin. destruct Hin as [Hin H2].
    exists (selected fs1 m1 xs), (selected fs2 m2 xs).
    split; [reflexivity|]. split; [reflexivity|].
    split; [exact Hin|]. apply selected_In.
    apply selected_In in Hin. tauto.
  - intros (y1 & y2 & H1 & H2 & Hi1 & Hi2).
    injection H1 as <-. injection H2 as <-.
    exists (selected fs2 m2 (selected fs1 m1 xs)). split; [reflexivity|].
    apply selected_In. apply selected_In in Hi2. tauto.
Qed.

Lemma count_union_intersection (p1 p2 : Rec -> bool) xs :
  length (selected [p1; p2] any xs) + length (selected [p1; p2] all xs)
  = length (selected [p1] any xs) + length (selected [p2] any xs).
Proof.
  unfold selected, any, all. induction xs as [|x xs IH]; [reflexivity|].
  simpl in *. destruct (p1 x), (p2 x); simpl; lia.
Qed.

(** X7: counting with two predicates.  The number of records that match
    [p1] or [p2] plus the number that match both is the number that match
    [p1] plus the number that match [p2]. *)
Theorem count_matches_inclusion_exclusion h self cls xs (p1 p2 : Rec -> bool) :
  container_at h self cls xs ->
  exists n_any n_all n1 n2 ha hb hc hd,
    count_matches self [p1; p2] any h = Some (Ok n_any, ha)
    /\ count_matches self [p1; p2] all h = Some (Ok n_all, hb)
    /\ count_matches self [p1] any h = Some (Ok n1, hc)
    /\ count_matches self [p2] any h = Some (Ok n2, hd)
    /\ n_any + n_all = n1 + n2.
Proof.
  intros Hc.
  destruct (count_matches_run h self cls xs [p1; p2] any Hc) as (ea & Ha).
  destruct (count_matches_run h self cls xs [p1; p2] all Hc) as (eb & Hb).
  destruct (count_matches_run h self cls xs [p1] any Hc) as (ec & Hcc).
  destruct (count_matches_run h self cls xs [p2] any Hc) as (ed & Hd).
  do 4 eexists. exists (h ++ ea), (h ++ eb), (h ++ ec), (h ++ ed).
  split; [exact Ha|]. split; [exact Hb|]. split; [exact Hcc|].
  split; [exact Hd|]. apply count_union_intersection.
Qed.

Lemma comprehension_ok {A B} (f : A -> result B) items recs :
  Forall2 (fun it r => f it = Ok r) items recs ->
  comprehension f items = Ok recs.
Proof.
  induction 1 as [|it r items recs Hit _ IH]; [reflexivity|].
  simpl. rewrite Hit. simpl. rewrite IH. reflexivity.
Qed.

Lemma comprehension_fail {A B} (f : A -> result B) pre bad post recs e :
  Forall2 (fun it r => f it = Ok r) pre recs ->
  f bad = Raise e ->
  comprehension f (pre ++ bad :: post) = Raise e.
Proof.
  induction 1 as [|it r items recs Hit _ IH]; intros Hbad; simpl.
  - rewrite Hbad. reflexivity.
  - rewrite Hit. simpl. rewrite (IH Hbad). reflexivity.
Qed.

Lemma from_dict_run_ok h cls dc fields v items recs :
  _DATA_CLS cls = Some dc ->
  assoc "data" fields = Some v ->
  iter v = Ok items ->
  Forall2 (fun it r => dc_from_dict dc it = Ok r) items recs ->
  exists r ext,
    from_dict cls (JDict fields) h = Some (Ok r, h ++ ext)
    /\ container_at (h ++ ext) r cls recs.
Proof.
  intros Hdc Hf Hiter Hall.
  assert (Hb : _DATA_CLS cls <> None) by congruence.
  apply comprehension_ok in Hall.
  unfold from_dict, bind, lift, getitem, rbind, alloc.
  unfold _validate at 1. rewrite Hdc. unfold ret. rewrite Hf, Hiter.
  change (comprehension _ items) with (comprehension (dc_from_dict dc) items).
  rewrite Hall.
  destruct recs as [|x recs].
  - rewrite (init_empty (h ++ [OList []]) cls (Some (length h)) Hb).
    + exists (length (h ++ [OList (Rec:=Rec) []]) + 1),
        ([OList []] ++
         [OList []; OInst cls (length (h ++ [OList (Rec:=Rec) []]) + 0)]).
      rewrite app_assoc. split; [reflexivity|].
      exists (length (h ++ [OList (Rec:=Rec) []]) + 0).
      split; [rewrite lookup_ext; reflexivity|].
      split; [rewrite lookup_ext; reflexivity | exact Hb].
    + right. exists (length h). split; [reflexivity | apply lookup_fresh].
  - rewrite (init_nonempty (h ++ [OList (x :: recs)]) cls (length h) x recs Hb)
      by apply lookup_fresh.
    exists (length (h ++ [OList (x :: recs)])),
      ([OList (x :: recs)] ++ [OInst cls (length h)]).
    rewrite app_assoc. split; [reflexivity|].
    exists (length h). split; [apply lookup_fresh|].
    split; [|exact Hb]. rewrite <- app_assoc. apply lookup_fresh.
Qed.

Lemma from_dict_run_fail h cls dc fields v pre bad post recs e :
  _DATA_CLS cls = Some dc ->
  assoc "data" fields = Some v ->
  iter v = Ok (pre ++ bad :: post) ->
  Forall2 (fun it r => dc_from_dict dc it = Ok r) pre recs ->
  dc_from_dict dc bad = Raise e ->
  from_dict cls (JDict fields) h = Some (Raise e, h).
Proof.
  intros Hdc Hf Hiter Hall Hbad.
  pose proof (comprehension_fail _ pre bad post recs e Hall Hbad) as Hc.
  unfold from_dict, bind, lift, getitem, rbind.
  unfold _validate at 1. rewrite Hdc. unfold ret. rewrite Hf, Hiter.
  change (comprehension _ (pre ++ bad :: post))
    with (comprehension (dc_from_dict dc) (pre ++ bad :: post)).
  rewrite Hc. reflexivity.
Qed.

(** X8: [from_dict] decodes the entries of the [data] list with the
    [from_dict] of the data class, one by one: when every entry decodes,
    the new container holds the decoded records in the order of the
    list. *)
Theorem from_dict_decodes_in_order h cls dc fields items recs :
  _DATA_CLS cls = Some dc ->
  assoc "data" fields = Some (JList items) ->
  Forall2 (fun it r => dc_from_dict dc it = Ok r) items recs ->
  exists r ext,
    from_dict cls (JDict fields) h = Some (Ok r, h ++ ext)
    /\ container_at (h ++ ext) r cls recs
    /\ __iter__ r (h ++ ext) = Some (Ok recs, h ++ ext)
    /\ length recs = length items.
Proof.
  intros Hdc Hf Hall.
  destruct (from_dict_run_ok h cls dc fields (JList items) items recs
              Hdc Hf eq_refl Hall) as (r & ext & Hrun & Hc).
  exists r, ext. split; [exact Hrun|]. split; [exact Hc|]. split.
  - destruct Hc as (d & Hr & Hd & _). apply (iter_run _ r cls d recs Hr Hd).
  - symmetry. apply (Forall2_length _ _ _ Hall).
Qed.

(** X9: when an entry of the [data] list does not decode, [from_dict]
    raises the error of the first such entry and creates nothing: no
    container, no list. *)
Theorem from_dict_stops_at_first_bad_entry
    h cls dc fields pre bad post recs e :
  _DATA_CLS cls = Some dc ->
  assoc "data" fields = Some (JList (pre ++ bad :: post)) ->
  Forall2 (fun it r => dc_from_dict dc it = Ok r) pre recs ->
  dc_from_dict dc bad = Raise e ->
  from_dict cls (JDict fields) h = Some (Raise e, h).
Proof.
  intros Hdc Hf Hall Hbad.
  apply (from_dict_run_fail h cls dc fields _ pre bad post recs e
           Hdc Hf eq_refl Hall Hbad).
Qed.

(** X10: on input of the wrong shape [from_dict] raises [TypeError] and
    creates nothing: when the argument is not a dictionary, and when its
    [data] entry is [null], a boolean or a number, none of which can be
    iterated. *)
Theorem from_dict_rejects_wrong_shape h cls d :
  _DATA_CLS cls <> None ->
  ((forall fields, d <> JDict fields) ->
   from_dict cls d h = Some (Raise TypeError, h))
  /\ (forall fields v,
        d = JDict fields -> assoc "data" fields = Some v ->
        (v = JNull \/ (exists b, v = JBool b) \/ (exists z, v = JNum z)) ->
        from_dict cls d h = Some (Raise TypeError, h)).
Proof.
  intros Hb. split.
  - intros Hd. unfold from_dict, bind, lift, _validate, ret.
    destruct (_DATA_CLS cls); [|congruence].
    destruct d; try reflexivity. exfalso. apply (Hd fields). reflexivity.
  - intros fields v -> Hf Hv.
    unfold from_dict, bind, lift, _validate, ret, getitem, rbind.
    destruct (_DATA_CLS cls); [|congruence]. rewrite Hf.
    destruct Hv as [->|[(b & ->)|(z & ->)]]; reflexivity.
Qed.

End Heap.

Section Tags.

Context {RelativePoint : Type}.
Variable RelativePoint_from_dict : json -> result RelativePoint.
Variable str : json -> string.

Local Abbreviation Tag := (NamedRelativePoint RelativePoint).
Local Abbreviation Tags :=
  (LocalizedTags RelativePoint RelativePoint_from_dict str).

(** X11: decoding a [LocalizedTags].  An entry of the [data] list that has
    no [label] makes [from_dict] raise [KeyError] for [label], also when
    its [relative_point] is missing or malformed; an entry with a [label]
    and no [relative_point] makes it raise [KeyError] for
    [relative_point]; in both cases nothing is created, whatever follows
    the entry. *)
Theorem LocalizedTags_from_dict_missing_key
    (h : list (obj Tag)) fields pre bad_fields post recs :
  assoc "data" fields = Some (JList (pre ++ JDict bad_fields :: post)) ->
  Forall2 (fun it r =>
             NamedRelativePoint_from_dict RelativePoint
               RelativePoint_from_dict str it = Ok r) pre recs ->
  (assoc "label" bad_fields = None ->
   from_dict Tags (JDict fields) h = Some (Raise (KeyError "label"), h))
  /\ (assoc "label" bad_fields <> None ->
      assoc "relative_point" bad_fields = None ->
      from_dict Tags (JDict fields) h
      = Some (Raise (KeyError "relative_point"), h)).
Proof.
  intros Hf Hall. split.
  - intros Hl.
    apply (from_dict_run_fail h Tags _ fields _ pre (JDict bad_fields) post
             recs _ eq_refl Hf eq_refl Hall).
    simpl. unfold NamedRelativePoint_from_dict, getitem. rewrite Hl.
    reflexivity.
  - intros Hl Hp.
    apply (from_dict_run_fail h Tags _ fields _ pre (JDict bad_fields) post
             recs _ eq_refl Hf eq_refl Hall).
    simpl. unfold NamedRelativePoint_from_dict, getitem.
    destruct (assoc "label" bad_fields); [|congruence]. simpl.
    rewrite Hp. reflexivity.
Qed.

Lemma size_labels_le (ls : list string) :
  size (list_to_set ls : gset string) <= length ls.
Proof.
  induction ls as [|l ls IH]; simpl.
  - change (size (∅ : gset string) <= 0). rewrite size_empty. lia.
  - rewrite size_union_alt, size_singleton.
    assert (Hle : size (list_to_set ls ∖ {[l]} : gset string)
                  <= size (list_to_set ls : gset string)).
    { apply subseteq_size. apply subseteq_difference_l. reflexivity. }
    lia.
Qed.

(** X12: [label_set] is the set of the labels of the tags: a label is in
    it exactly when some tag of the container has it, so it has at most
    [num] elements; after [add] it is the old set with the label of the
    new tag. *)
Theorem label_set_follows_add (h : list (obj Tag)) self cls d xs (x : Tag) :
  h !! self = Some (OInst cls d) ->
  h !! d = Some (OList xs) ->
  exists s h' s',
    label_set self h = Some (Ok s, h)
    /\ (forall l, l ∈ s <-> exists t, In t xs /\ label RelativePoint t = l)
    /\ size s <= length xs
    /\ add self x h = Some (Ok tt, h')
    /\ label_set self h' = Some (Ok s', h')
    /\ s' = s ∪ {[ label RelativePoint x ]}.
Proof.
  intros Hs Hd.
  pose proof (inst_list_distinct h self cls d xs Hs Hd) as Hne.
  set (h' := <[d := OList (xs ++ [x])]> h).
  assert (Hs' : h' !! self = Some (OInst cls d))
    by (unfold h'; rewrite list_lookup_insert_ne by congruence; exact Hs).
  assert (Hd' : h' !! d = Some (OList (xs ++ [x])))
    by (apply list_lookup_insert_eq; apply lookup_lt_Some in Hd; exact Hd).
  exists (list_to_set (map (label RelativePoint) xs)), h',
    (list_to_set (map (label RelativePoint) (xs ++ [x]))).
  split.
  { unfold label_set, bind, get_inst, get_list, ret.
    rewrite Hs. simpl. rewrite Hd. reflexivity. }
  split.
  { intros l. rewrite elem_of_list_to_set, list_elem_of_In, in_map_iff.
    split; intros (t & H1 & H2); exists t; tauto. }
  split.
  { etransitivity; [apply size_labels_le|]. rewrite length_map. lia. }
  split; [apply (add_run h self cls d xs x Hs Hd)|].
  split.
  { unfold label_set, bind, get_inst, get_list, ret.
    rewrite Hs'. simpl. rewrite Hd'. reflexivity. }
  rewrite map_app. simpl. rewrite list_to_set_app_L. simpl.
  rewrite (right_id_L ∅ (∪)). reflexivity.
Qed.

End Tags.

Import Examples.

Lemma add_appends_in_place_witness :
  tags_heap !! 1 = Some (OInst Tags 0)
  /\ tags_heap !! 0 = Some (OList [car; dog])
  /\ exists h',
       add 1 car tags_heap = Some (Ok tt, h')
       /\ __iter__ 1 h' = Some (Ok ([car; dog] ++ [car]), h')
       /\ num 1 h' = Some (Ok 3, h')
       /\ length h' = length tags_heap
       /\ forall i, i <> 0 -> h' !! i = tags_heap !! i.
Proof.
  split; [reflexivity|]. split; [reflexivity|].
  apply (add_appends_in_place tags_heap 1 Tags 0 [car; dog] car);
    reflexivity.
Defined.

Lemma constructor_shares_nonempty_list_witness :
  _DATA_CLS Tags <> None
  /\ tags_heap !! 0 = Some (OList [car; dog])
  /\ exists c1 h1 c2 h2 h3,
       __init__ Tags (Some 0) tags_heap = Some (Ok c1, h1)
       /\ __init__ Tags (Some 0) h1 = Some (Ok c2, h2)
       /\ c1 <> c2
       /\ add c1 car h2 = Some (Ok tt, h3)
       /\ __iter__ c2 h3 = Some (Ok ([car; dog] ++ [car]), h3)
       /\ h3 !! 0 = Some (OList ([car; dog] ++ [car])).
Proof.
  split; [discriminate|]. split; [reflexivity|].
  apply (constructor_shares_nonempty_list tags_heap Tags 0 car [dog] car);
    [discriminate | reflexivity].
Defined.

Lemma constructor_copies_empty_list_witness :
  _DATA_CLS Tags <> None
  /\ exists c1 h1 c2 h2 h3,
       __init__ Tags None tags_heap = Some (Ok c1, h1)
       /\ __init__ Tags None h1 = Some (Ok c2, h2)
       /\ add c1 car h2 = Some (Ok tt, h3)
       /\ __iter__ c1 h3 = Some (Ok [car], h3)
       /\ __iter__ c2 h3 = Some (Ok [], h3)
       /\ forall l, None = Some l -> h3 !! l = Some (OList []).
Proof.
  split; [discriminate|].
  apply (constructor_copies_empty_list tags_heap Tags None car);
    [discriminate | left; reflexivity].
Defined.

Lemma get_matches_result_is_independent_witness :
  container_at tags_heap 1 Tags [car; dog]
  /\ exists r h1,
       get_matches 1 [is_car] any tags_heap = Some (Ok r, h1)
       /\ (exists h2,
             add r dog h1 = Some (Ok tt, h2)
             /\ container_at h2 r Tags
                  (selected [is_car] any [car; dog] ++ [dog])
             /\ container_at h2 1 Tags [car; dog])
       /\ (exists h2,
             add 1 dog h1 = Some (Ok tt, h2)
             /\ container_at h2 1 Tags ([car; dog] ++ [dog])
             /\ container_at h2 r Tags (selected [is_car] any [car; dog])).
Proof.
  split; [exact tags_heap_container|].
  apply (get_matches_result_is_independent tags_heap 1 Tags [car; dog]
           [is_car] any dog).
  exact tags_heap_container.
Defined.

Lemma get_matches_keeps_order_witness :
  container_at tags_heap 1 Tags [car; dog]
  /\ exists ys n h',
       records_of (get_matches 1 [is_dog] any) tags_heap = Some ys
       /\ sublist ys [car; dog]
       /\ count_matches 1 [is_dog] any tags_heap = Some (Ok n, h')
       /\ n = length ys
       /\ num 1 tags_heap = Some (Ok (length [car; dog]), tags_heap)
       /\ n <= length [car; dog].
Proof.
  split; [exact tags_heap_container|].
  apply (get_matches_keeps_order tags_heap 1 Tags [car; dog] [is_dog] any).
  exact tags_heap_container.
Defined.

Lemma get_matches_composes_witness :
  container_at tags_heap 1 Tags [car; dog]
  /\ records_of (bind (get_matches 1 [is_car] all)
                   (fun r => get_matches r [is_dog] all)) tags_heap
     = records_of (get_matches 1 ([is_car] ++ [is_dog]) all) tags_heap.
Proof.
  split; [exact tags_heap_container|].
  apply (get_matches_composes tags_heap 1 Tags [car; dog] [is_car] all
           [is_dog] all).
  exact tags_heap_container.
Defined.

Lemma count_matches_inclusion_exclusion_witness :
  container_at tags_heap 1 Tags [car; dog]
  /\ exists n_any n_all n1 n2 ha hb hc hd,
       count_matches 1 [is_car; is_dog] any tags_heap = Some (Ok n_any, ha)
       /\ count_matches 1 [is_car; is_dog] all tags_heap = Some (Ok n_all, hb)
       /\ count_matches 1 [is_car] any tags_heap = Some (Ok n1, hc)
       /\ count_matches 1 [is_dog] any tags_heap = Some (Ok n2, hd)
       /\ n_any + n_all = n1 + n2.
Proof.
  split; [exact tags_heap_container|].
  apply (count_matches_inclusion_exclusion tags_heap 1 Tags [car; dog]
           is_car is_dog).
  exact tags_heap_container.
Defined.

Lemma from_dict_decodes_in_order_witness :
  Forall2 (fun it r => point_tag_from_dict it = Ok r)
    [car_json; dog_json] [car; dog]
  /\ exists r ext,
       from_dict Tags (JDict [("data", JList [car_json; dog_json])]) tags_heap
       = Some (Ok r, tags_heap ++ ext)
       /\ container_at (tags_heap ++ ext) r Tags [car; dog]
       /\ __iter__ r (tags_heap ++ ext)
          = Some (Ok [car; dog], tags_heap ++ ext)
       /\ length [car; dog] = length [car_json; dog_json].
Proof.
  assert (H : Forall2 (fun it r => point_tag_from_dict it = Ok r)
                [car_json; dog_json] [car; dog])
    by (repeat constructor).
  split; [exact H|].
  apply (from_dict_decodes_in_order tags_heap Tags
           (NamedRelativePoint_cls Z point_from_dict str)
           [("data", JList [car_json; dog_json])] [car_json; dog_json]
           [car; dog] eq_refl eq_refl H).
Defined.

Lemma from_dict_stops_at_first_bad_entry_witness :
  Forall2 (fun it r => point_tag_from_dict it = Ok r) [car_json] [car]
  /\ point_tag_from_dict JNull = Raise TypeError
  /\ from_dict Tags (JDict [("data", JList ([car_json] ++ JNull :: [dog_json]))])
       tags_heap
     = Some (Raise TypeError, tags_heap).
Proof.
  assert (H : Forall2 (fun it r => point_tag_from_dict it = Ok r)
                [car_json] [car])
    by (repeat constructor).
  split; [exact H|]. split; [reflexivity|].
  apply (from_dict_stops_at_first_bad_entry tags_heap Tags
           (NamedRelativePoint_cls Z point_from_dict str)
           [("data", JList ([car_json] ++ JNull :: [dog_json]))]
           [car_json] JNull [dog_json] [car] TypeError eq_refl eq_refl H
           eq_refl).
Defined.

Lemma from_dict_rejects_wrong_shape_witness :
  _DATA_CLS Tags <> None
  /\ (forall fields, JList [car_json] <> JDict fields)
  /\ from_dict Tags (JList [car_json]) tags_heap
     = Some (Raise TypeError, tags_heap).
Proof.
  split; [discriminate|]. split; [discriminate|].
  apply (proj1 (from_dict_rejects_wrong_shape tags_heap Tags
                  (JList [car_json])
                  (fun H : _DATA_CLS Tags = None =>
                     eq_ind (Some (NamedRelativePoint_cls Z point_from_dict str))
                       (fun o => match o with Some _ => True | None => False end)
                       I None H))).
  discriminate.
Defined.

Lemma LocalizedTags_from_dict_missing_key_witness :
  Forall2 (fun it r => point_tag_from_dict it = Ok r) [car_json] [car]
  /\ assoc "label" [("relative_point", JStr "nowhere")] = None
  /\ from_dict Tags
       (JDict [("data",
                JList ([car_json]
                       ++ JDict [("relative_point", JStr "nowhere")]
                       :: [dog_json]))])
       tags_heap
     = Some (Raise (KeyError "label"), tags_heap).
Proof.
  assert (H : Forall2 (fun it r => point_tag_from_dict it = Ok r)
                [car_json] [car])
    by (repeat constructor).
  split; [exact H|]. split; [reflexivity|].
  apply (proj1 (LocalizedTags_from_dict_missing_key point_from_dict str
                  tags_heap
                  [("data",
                    JList ([car_json]
                           ++ JDict [("relative_point", JStr "nowhere")]
                           :: [dog_json]))]
                  [car_json] [("relative_point", JStr "nowhere")] [dog_json]
                  [car] eq_refl H)).
  reflexivity.
Defined.

Lemma label_set_follows_add_witness :
  tags_heap !! 1 = Some (OInst Tags 0)
  /\ tags_heap !! 0 = Some (OList [car; dog])
  /\ exists (s : gset string) h' (s' : gset string),
       label_set 1 tags_heap = Some (Ok s, tags_heap)
       /\ (forall l, l ∈ s <-> exists t, In t [car; dog] /\ label Z t = l)
       /\ size s <= length [car; dog]
       /\ add 1 car tags_heap = Some (Ok tt, h')
       /\ label_set 1 h' = Some (Ok s', h')
       /\ s' = s ∪ {[ label Z car ]}.
Proof.
  split; [reflexivity|]. split; [reflexivity|].
  apply (label_set_follows_add tags_heap 1 Tags 0 [car; dog] car);
    reflexivity.
Defined.

End DataMore.

(** * Further properties of eta/core/primitives.py *)

Module PrimitivesMore.
Import Py Primitives PrimitivesProps.

Section Requested.

Context {ndarray KeyPoint : Type}.
Variable env : Env ndarray.
Variable np : Numeric ndarray KeyPoint.

Lemma supplied_existsb paths path p :
  In path paths -> path = Some p -> truthy path = true ->
  existsb (String.eqb p) (supplied paths) = true.
Proof.
  intros Hin -> Ht. induction paths as [|a paths IH]; [destruct Hin|].
  destruct Hin as [->|Hin].
  - simpl in *. rewrite Ht. simpl. rewrite String.eqb_refl. reflexivity.
  - specialize (IH Hin). destruct a as [a|]; [|exact IH].
    simpl in *. destruct (negb (String.eqb a "")); [|exact IH].
    simpl. rewrite IH. apply orb_true_r.
Qed.

Ltac req_done :=
  unfold requested; cbn [fst];
  first
    [ reflexivity
    | assumption
    | eapply supplied_existsb; [|eassumption|eassumption]; simpl; tauto ].

(** X13: a run touches only the outputs that were asked for.  In each of
    the four [process] methods, a directory is ensured and an array is
    saved only for a path template that was given, and a video is opened,
    written or closed only if its path was given; with no output path at
    all, nothing is written. *)
Theorem outputs_only_as_requested (input_path : string)
    (cart_path polar_path vid_path : option string)
    (fgmask_path fgvid_path bgvid_path masks_path coords_path
     : option string) :
  (forall S (alg : FrameAlg ndarray S ndarray) s ev,
     In ev (snd (run (DenseOpticalFlow_process env np alg input_path
                        cart_path polar_path vid_path) s)) ->
     requested (supplied [cart_path; polar_path]) false false
       (truthy vid_path) ev = true)
  /\ (forall S (alg : FrameAlg ndarray S (ndarray * ndarray)) s ev,
        In ev (snd (run (BackgroundSubtractor_process env np alg input_path
                           fgmask_path fgvid_path bgvid_path) s)) ->
        requested (supplied [fgmask_path]) (truthy fgvid_path)
          (truthy bgvid_path) false ev = true)
  /\ (forall S (alg : FrameAlg ndarray S ndarray) s ev,
        In ev (snd (run (EdgeDetector_process env np alg input_path
                           masks_path vid_path) s)) ->
        requested (supplied [masks_path]) false false
          (truthy vid_path) ev = true)
  /\ (forall S (alg : FrameAlg ndarray S (list KeyPoint)) s ev,
        In ev (snd (run (FeaturePointDetector_process env np alg input_path
                           coords_path vid_path) s)) ->
        requested (supplied [coords_path]) false false
          (truthy vid_path) ev = true).
Proof.
  repeat split; intros S alg s ev; rewrite run_trace; apply only_In.
  - unfold DenseOpticalFlow_process, ensure, save.
    repeat only_step;
      try (destruct (negb (truthy polar_path) && negb (truthy vid_path));
           repeat only_step);
      req_done.
  - unfold BackgroundSubtractor_process, BackgroundSubtractor_finally,
      ensure, save.
    repeat only_step; req_done.
  - unfold EdgeDetector_process, ensure, save.
    repeat only_step; req_done.
  - unfold FeaturePointDetector_process, ensure, save.
    repeat only_step; req_done.
Qed.

(** X14: [BackgroundSubtractor.process] never closes the reader it
    opens: no run, whatever happens in it, contains a call of [close] on
    the input. *)
Theorem reader_is_never_closed
    S (alg : FrameAlg ndarray S (ndarray * ndarray)) (s : S)
    (input_path : string) (fgmask_path fgvid_path bgvid_path : option string) :
  let t := snd (run (BackgroundSubtractor_process env np alg input_path
                       fgmask_path fgvid_path bgvid_path) s) in
  (forall ev, In ev t -> is_close_reader ev = false)
  /\ ~ In Reader (released t).
Proof.
  intros t.
  assert (H : forall ev, In ev t -> is_close_reader ev = false).
  { intros ev Hin. subst t. rewrite run_trace in Hin.
    apply (only_In (fun ev => negb (is_close_reader ev))) in Hin.
    - destruct (is_close_reader ev); [discriminate | reflexivity].
    - unfold BackgroundSubtractor_process, BackgroundSubtractor_finally,
        ensure, save.
      repeat only_step; reflexivity. }
  split; [exact H|].
  clear - H. induction t as [|[c b] t IH]; [intros []|].
  intros Hin.
  assert (Hc : is_close_reader (c, b) = false) by (apply H; left; reflexivity).
  assert (Ht : ~ In Reader (released t))
    by (apply IH; intros ev He; apply H; right; exact He).
  destruct c; simpl in Hin; try (apply Ht; exact Hin).
  destruct Hin as [Heq|Hin]; [subst h; discriminate Hc | apply Ht; exact Hin].
Qed.

End Requested.

Section Order.

Context {ndarray KeyPoint : Type}.
Variable env : Env ndarray.
Variable np : Numeric ndarray KeyPoint.
Variables guard target : Event -> bool.

Lemma precededb_sound t :
  precededb guard target t = true -> preceded guard target t.
Proof.
  induction t as [|a t IH]; intros Hb pre ev post Heq Ht.
  - destruct pre; discriminate Heq.
  - simpl in Hb. destruct pre as [|a' pre'].
    + simpl in Heq. injection Heq as <- _. rewrite Ht in Hb. discriminate.
    + simpl in Heq. injection Heq as <- Heq.
      destruct (target a); [discriminate|].
      destruct (guard a) eqn:Hg.
      * exists a. split; [left; reflexivity | exact Hg].
      * destruct (IH Hb pre' ev post Heq Ht) as (g & Hin & Hgg).
        exists g. split; [right; exact Hin | exact Hgg].
Qed.

Local Abbreviation clean := (fun ev : Event => negb (target ev)).

Lemma precededb_clean_app t1 t2 :
  forallb clean t1 = true ->
  precededb guard target t2 = true ->
  precededb guard target (t1 ++ t2) = true.
Proof.
  intros H1 H2. induction t1 as [|a t1 IH]; [exact H2|].
  simpl in *. apply andb_true_iff in H1. destruct H1 as [Ha H1].
  apply negb_true_iff in Ha. rewrite Ha.
  destruct (guard a); [reflexivity | apply IH; exact H1].
Qed.

Lemma precededb_app_clean t1 t2 :
  precededb guard target t1 = true ->
  forallb clean t2 = true ->
  precededb guard target (t1 ++ t2) = true.
Proof.
  intros H1 H2. induction t1 as [|a t1 IH].
  - simpl. induction t2 as [|b t2 IH2]; [reflexivity|].
    simpl in *. apply andb_true_iff in H2. destruct H2 as [Hb H2].
    apply negb_true_iff in Hb. rewrite Hb.
    destruct (guard b); [reflexivity | apply IH2; exact H2].
  - simpl in *. destruct (target a); [discriminate|].
    destruct (guard a); [reflexivity | apply IH; exact H1].
Qed.

Lemma precededb_clean t :
  forallb clean t = true -> precededb guard target t = true.
Proof.
  intros H. rewrite <- (app_nil_r t). apply precededb_clean_app; auto.
Qed.

Lemma precededb_bind_clean {S A B} (m : P S A) (k : A -> P S B) :
  only clean m ->
  (forall a s, precededb guard target (snd (k a s)) = true) ->
  forall s, precededb guard target (snd (bind m k s)) = true.
Proof.
  intros Hm Hk s. unfold bind. specialize (Hm s).
  destruct (m s) as [[r s1] t1]. simpl in Hm.
  destruct r as [a|e]; [|apply precededb_clean; exact Hm].
  specialize (Hk a s1). destruct (k a s1) as [[r2 s2] t2]. simpl in *.
  apply precededb_clean_app; assumption.
Qed.

Lemma precededb_try_finally {S A} (body : P S A) (fin : P S unit) :
  (forall s, precededb guard target (snd (body s)) = true) ->
  only clean fin ->
  forall s, precededb guard target (snd (try_finally body fin s)) = true.
Proof.
  intros Hb Hf s. unfold try_finally. specialize (Hb s).
  destruct (body s) as [[r s1] t1]. specialize (Hf s1).
  destruct (fin s1) as [[r2 s2] t2]. simpl in *.
  destruct r2; simpl; apply precededb_app_clean; assumption.
Qed.

End Order.

Section ResetFirst.

Context {ndarray KeyPoint : Type}.
Variable env : Env ndarray.
Variable np : Numeric ndarray KeyPoint.

Lemma precededb_reset {S R A} (alg : FrameAlg ndarray S R)
    (k : unit -> P S A) s :
  precededb is_reset_ok is_process_frame (snd (bind (reset alg) k s)) = true.
Proof.
  unfold bind, reset. destruct (_reset alg (self s)) as [[[]|e] a]; simpl.
  - destruct (k tt _) as [[r2 s2] t2]. reflexivity.
  - reflexivity.
Qed.

(** X15: [_reset] comes first.  In each of the four [process] methods,
    every call of [_process_frame] comes after a call of [_reset] that
    returned: no frame is processed on the state of an earlier run, and
    none at all when [_reset] raises. *)
Theorem reset_precedes_frames (input_path : string)
    (cart_path polar_path vid_path : option string)
    (fgmask_path fgvid_path bgvid_path masks_path coords_path
     : option string) :
  (forall S (alg : FrameAlg ndarray S ndarray) s,
     preceded is_reset_ok is_process_frame
       (snd (run (DenseOpticalFlow_process env np alg input_path
                    cart_path polar_path vid_path) s)))
  /\ (forall S (alg : FrameAlg ndarray S (ndarray * ndarray)) s,
        preceded is_reset_ok is_process_frame
          (snd (run (BackgroundSubtractor_process env np alg input_path
                       fgmask_path fgvid_path bgvid_path) s)))
  /\ (forall S (alg : FrameAlg ndarray S ndarray) s,
        preceded is_reset_ok is_process_frame
          (snd (run (EdgeDetector_process env np alg input_path
                       masks_path vid_path) s)))
  /\ (forall S (alg : FrameAlg ndarray S (list KeyPoint)) s,
        preceded is_reset_ok is_process_frame
          (snd (run (FeaturePointDetector_process env np alg input_path
                       coords_path vid_path) s))).
Proof.
  repeat split; intros S alg s; apply precededb_sound; rewrite run_trace.
  - unfold DenseOpticalFlow_process, ensure.
    apply precededb_bind_clean; [repeat only_step; reflexivity|].
    intros _ s1.
    apply precededb_bind_clean; [repeat only_step; reflexivity|].
    intros _ s2. apply precededb_reset.
  - unfold BackgroundSubtractor_process, BackgroundSubtractor_finally, ensure.
    apply precededb_bind_clean; [repeat only_step; reflexivity|].
    intros _ s1.
    apply precededb_bind_clean; [repeat only_step; reflexivity|].
    intros _ s2.
    apply precededb_try_finally; [|repeat only_step; reflexivity].
    intros s3.
    apply precededb_bind_clean; [repeat only_step; reflexivity|].
    intros _ s4.
    apply precededb_bind_clean; [repeat only_step; reflexivity|].
    intros _ s5. apply precededb_reset.
  - unfold EdgeDetector_process, ensure.
    apply precededb_bind_clean; [repeat only_step; reflexivity|].
    intros _ s1. apply precededb_reset.
  - unfold FeaturePointDetector_process, ensure.
    apply precededb_bind_clean; [repeat only_step; reflexivity|].
    intros _ s1. apply precededb_reset.
Qed.

End ResetFirst.

Section Frames.

Context {ndarray KeyPoint : Type}.
Variable env : Env ndarray.
Variable np : Numeric ndarray KeyPoint.
Context {S : Type}.

Local Abbreviation no_frame := (fun ev : Event => negb (frame_event ev)).

Lemma processed_app t1 t2 : processed (t1 ++ t2) = processed t1 ++ processed t2.
Proof.
  induction t1 as [|[c b] t1 IH]; [reflexivity|].
  destruct c; simpl; rewrite ?IH; reflexivity.
Qed.

Lemma saved_app t1 t2 : saved (t1 ++ t2) = saved t1 ++ saved t2.
Proof.
  induction t1 as [|[c b] t1 IH]; [reflexivity|].
  destruct c, b; simpl; rewrite ?IH; reflexivity.
Qed.

Lemma written_app h t1 t2 :
  written h (t1 ++ t2) = written h t1 ++ written h t2.
Proof.
  induction t1 as [|[c b] t1 IH]; [reflexivity|].
  destruct c, b; simpl; rewrite ?IH; try reflexivity.
  destruct (handle_eqb h h0); simpl; rewrite ?IH; reflexivity.
Qed.

Lemma frameless_outputs t :
  forallb no_frame t = true ->
  processed t = [] /\ saved t = [] /\ forall h, written h t = [].
Proof.
  induction t as [|[c b] t IH]; [repeat split|].
  intros H. simpl in H. apply andb_true_iff in H. destruct H as [Ha H].
  destruct (IH H) as (Hp & Hs & Hw).
  destruct c, b; simpl in *; try discriminate; repeat split; auto.
Qed.

Local Abbreviation in_order first N sv wf wb rt :=
  (exists k : nat,
      (k <= N)%nat
      /\ processed (snd rt) = seq first k
      /\ (fst (fst rt) = Ok tt ->
          (k = N)%nat
          /\ saved (snd rt) = sv
          /\ written FgWriter (snd rt) = wf
          /\ written BgWriter (snd rt) = wb)).

Lemma for_frames_cons h img rest n (body : nat -> ndarray -> P S unit) s :
  for_frames env h (img :: rest) n body s
  = match body n img s with
    | (Ok _, s1, t1) =>
        match for_frames env h rest (Datatypes.S n) body s1 with
        | (r2, s2, t2) => (r2, s2, (Next h n, true) :: t1 ++ t2)
        end
    | (Raise e, s1, t1) => (Raise e, s1, (Next h n, true) :: t1)
    end.
Proof.
  simpl. unfold bind, call.
  destruct (body n img s) as [[[[]|e] s1] t1]; [|reflexivity].
  destruct (for_frames env h rest (Datatypes.S n) body s1) as [[r2 s2] t2].
  reflexivity.
Qed.

Lemma for_frames_in_order h (body : nat -> ndarray -> P S unit)
    (fs : nat -> list (string * nat)) (fw fb : nat -> list nat) :
  (forall n img s, processed (snd (body n img s)) = [n]) ->
  (forall n img s,
      fst (fst (body n img s)) = Ok tt ->
      saved (snd (body n img s)) = fs n
      /\ written FgWriter (snd (body n img s)) = fw n
      /\ written BgWriter (snd (body n img s)) = fb n) ->
  forall frames n s,
    in_order n (length frames)
      (flat_map fs (seq n (length frames)))
      (flat_map fw (seq n (length frames)))
      (flat_map fb (seq n (length frames)))
      (for_frames env h frames n body s).
Proof.
  intros Hp Ho. induction frames as [|img rest IH]; intros n s.
  - exists 0. simpl. repeat split; lia.
  - rewrite for_frames_cons.
    specialize (Hp n img s). specialize (Ho n img s).
    destruct (body n img s) as [[r s1] t1]. simpl in Hp, Ho.
    destruct r as [[]|e].
    + destruct (IH (Datatypes.S n) s1) as (k & Hk & Hpk & Hok).
      destruct (for_frames env h rest (Datatypes.S n) body s1)
        as [[r2 s2] t2].
      simpl in *. exists (Datatypes.S k). split; [lia|].
      split; [rewrite processed_app, Hp, Hpk; reflexivity|].
      intros Hr. destruct (Hok Hr) as (Hkk & Hs & Hw & Hb).
      destruct (Ho eq_refl) as (Hs1 & Hw1 & Hb1).
      rewrite saved_app, !written_app, Hs, Hw, Hb, Hs1, Hw1, Hb1.
      repeat split. lia.
    + exists 1. simpl. split; [lia|].
      split; [rewrite Hp; reflexivity | discriminate].
Qed.

(** The body of the loop of [BackgroundSubtractor.process]. *)
Local Abbreviation subtraction_body alg fgmask_path fgvid_path bgvid_path :=
  (fun (n : nat) (img : ndarray) =>
     bind (process_frame alg n img) (fun fb =>
     bind (if_path fgmask_path (fun p => save env p n (fst fb))) (fun _ =>
     bind (if_path fgvid_path (fun _ =>
             bind (lift (zero_background np img (fst fb)))
               (fun img' => write_local env FgWriter n img')))
       (fun _ =>
     if_path bgvid_path
       (fun _ => write_local env BgWriter n (snd fb)))))).

Lemma subtraction_body_processed
    (alg : FrameAlg ndarray S (ndarray * ndarray))
    (fgmask_path fgvid_path bgvid_path : option string) n img s :
  processed
    (snd (subtraction_body alg fgmask_path fgvid_path bgvid_path n img s))
  = [n].
Proof.
  unfold bind at 1. unfold process_frame at 1.
  destruct (_process_frame alg (self s) img) as [[fb|e] a]; [|reflexivity].
  match goal with
  | |- context [bind ?m ?k ?s0] =>
      assert (Ho : only (fun ev => negb (is_process_frame ev)) (bind m k))
        by (unfold save; repeat only_step; reflexivity);
      specialize (Ho s0); destruct (bind m k s0) as [[r1 s1] t1]
  end.
  simpl in *. f_equal.
  clear - Ho. induction t1 as [|[c b] t1 IH]; [reflexivity|].
  simpl in Ho. apply andb_true_iff in Ho. destruct Ho as [Hc Ho].
  destruct c; simpl in *; try discriminate; apply IH; exact Ho.
Qed.

Lemma subtraction_body_outputs
    (alg : FrameAlg ndarray S (ndarray * ndarray))
    (fgmask_path fgvid_path bgvid_path : option string) n img s :
  fst (fst (subtraction_body alg fgmask_path fgvid_path bgvid_path n img s))
  = Ok tt ->
  saved (snd (subtraction_body alg fgmask_path fgvid_path bgvid_path n img s))
  = map (fun p => (p, n)) (supplied [fgmask_path])
  /\ written FgWriter
       (snd (subtraction_body alg fgmask_path fgvid_path bgvid_path n img s))
     = (if truthy fgvid_path then [n] else [])
  /\ written BgWriter
       (snd (subtraction_body alg fgmask_path fgvid_path bgvid_path n img s))
     = (if truthy bgvid_path then [n] else []).
Proof.
  destruct (subtraction_body alg fgmask_path fgvid_path bgvid_path n img s)
    as [[r s1] t] eqn:E.
  simpl. intros ->.
  unfold bind, process_frame, save, write_local, read_local, call, lift,
    bind, ret, if_path in E.
  destruct (_process_frame alg (self s) img) as [[fb|e] a];
    [|discriminate E].
  destruct fgmask_path as [p|], fgvid_path as [q|], bgvid_path as [r|];
    simpl in E |- *;
    repeat match type of E with
    | context [negb (String.eqb ?x "")] =>
        destruct (negb (String.eqb x "")); simpl in E |- *
    end;
    repeat match type of E with
    | context [match ?x with _ => _ end] =>
        match x with
        | context [match _ with _ => _ end] => fail 1
        | _ =>
            lazymatch type of x with
            | bool => destruct x
            | result unit => destruct x as [[]|]
            | _ => destruct x
            end
        end; simpl in E
    end;
    try discriminate E; inversion E; subst;
    repeat match goal with H : _ = Ok _ |- _ => rewrite H end;
    repeat split.
Qed.

Lemma in_order_prefix {A} first N sv wf wb (m : P S A) (k : A -> P S unit) :
  only no_frame m ->
  (forall a s, in_order first N sv wf wb (k a s)) ->
  forall s, in_order first N sv wf wb (bind m k s).
Proof.
  intros Hm Hk s. unfold bind. specialize (Hm s).
  destruct (m s) as [[r s1] t1]. simpl in Hm.
  destruct (frameless_outputs t1 Hm) as (Hp & Hs & Hw).
  destruct r as [a|e].
  - destruct (Hk a s1) as (k0 & Hk0 & Hpk & Hok).
    destruct (k a s1) as [[r2 s2] t2]. simpl in *.
    exists k0. split; [exact Hk0|].
    rewrite processed_app, saved_app, !written_app, Hp, Hs, !Hw.
    split; [exact Hpk | exact Hok].
  - exists 0. simpl. split; [lia|]. split; [exact Hp | discriminate].
Qed.

Lemma in_order_try_finally first N sv wf wb (body fin : P S unit) :
  (forall s, in_order first N sv wf wb (body s)) ->
  only no_frame fin ->
  forall s, in_order first N sv wf wb (try_finally body fin s).
Proof.
  intros Hb Hf s. unfold try_finally.
  destruct (Hb s) as (k0 & Hk0 & Hpk & Hok).
  destruct (body s) as [[r s1] t1]. specialize (Hf s1).
  destruct (fin s1) as [[r2 s2] t2]. simpl in *.
  destruct (frameless_outputs t2 Hf) as (Hp & Hs & Hw).
  exists k0. split; [exact Hk0|].
  destruct r2 as [[]|e]; simpl;
    rewrite processed_app, saved_app, !written_app, Hp, Hs, !Hw,
      !app_nil_r;
    (split; [exact Hpk|]); [exact Hok | discriminate].
Qed.

Lemma flat_map_if {A} (b : bool) (l : list A) :
  flat_map (fun x => if b then [x] else []) l = if b then l else [].
Proof.
  induction l as [|x l IH]; [destruct b; reflexivity|].
  simpl. rewrite IH. destruct b; reflexivity.
Qed.

Lemma subtraction_in_order
    (alg : FrameAlg ndarray S (ndarray * ndarray)) (input_path : string)
    (fgmask_path fgvid_path bgvid_path : option string) s :
  in_order 1 (length (stream env))
    (flat_map (fun n => map (fun p => (p, n)) (supplied [fgmask_path]))
       (seq 1 (length (stream env))))
    (if truthy fgvid_path then seq 1 (length (stream env)) else [])
    (if truthy bgvid_path then seq 1 (length (stream env)) else [])
    (BackgroundSubtractor_process env np alg input_path
       fgmask_path fgvid_path bgvid_path s).
Proof.
  rewrite <- !flat_map_if. revert s.
  unfold BackgroundSubtractor_process, BackgroundSubtractor_finally, ensure.
  apply in_order_prefix; [repeat only_step; reflexivity|]. intros _.
  apply in_order_prefix; [repeat only_step; reflexivity|]. intros _.
  apply in_order_try_finally; [|repeat only_step; reflexivity].
  apply in_order_prefix; [repeat only_step; reflexivity|]. intros _.
  apply in_order_prefix; [repeat only_step; reflexivity|]. intros _.
  apply in_order_prefix; [repeat only_step; reflexivity|]. intros _.
  apply for_frames_in_order.
  - intros n img s. apply subtraction_body_processed.
  - intros n img s. apply subtraction_body_outputs.
Qed.

(** X16: [BackgroundSubtractor.process] calls [_process_frame] on the
    frames in order, each one once, starting with frame 1: whatever
    happens in a run, the frames processed are [1, ..., k] for some [k]
    that is at most the number of frames of the input. *)
Theorem frames_processed_in_order
    (alg : FrameAlg ndarray S (ndarray * ndarray)) (a : S)
    (input_path : string) (fgmask_path fgvid_path bgvid_path : option string) :
  exists k : nat,
    (k <= length (stream env))%nat
    /\ processed (snd (run (BackgroundSubtractor_process env np alg
                              input_path fgmask_path fgvid_path bgvid_path)
                         a))
       = seq 1 k.
Proof.
  rewrite run_trace.
  destruct (subtraction_in_order alg input_path fgmask_path fgvid_path
              bgvid_path {| self := a; locals := [] |})
    as (k & Hk & Hp & _).
  exists k. split; assumption.
Qed.

(** X17: a run of [BackgroundSubtractor.process] that returns has handled
    every frame of the input: [_process_frame] was called on frames
    [1, ..., N] in order, and each output that was asked for got all [N]
    frames in order, one mask file per frame, one frame of foreground
    video and one of background video per frame. *)
Theorem normal_return_outputs_every_frame
    (alg : FrameAlg ndarray S (ndarray * ndarray)) (a : S)
    (input_path : string) (fgmask_path fgvid_path bgvid_path : option string) :
  let rt := run (BackgroundSubtractor_process env np alg input_path
                   fgmask_path fgvid_path bgvid_path) a in
  let frames := seq 1 (length (stream env)) in
  fst rt = Ok tt ->
  processed (snd rt) = frames
  /\ saved (snd rt)
     = flat_map (fun n => map (fun p => (p, n)) (supplied [fgmask_path]))
         frames
  /\ written FgWriter (snd rt) = (if truthy fgvid_path then frames else [])
  /\ written BgWriter (snd rt) = (if truthy bgvid_path then frames else []).
Proof.
  intros rt frames. subst rt frames. rewrite run_trace, run_result.
  destruct (subtraction_in_order alg input_path fgmask_path fgvid_path
              bgvid_path {| self := a; locals := [] |})
    as (k & Hk & Hp & Hok).
  intros Hr. destruct (Hok Hr) as (-> & Hs & Hw & Hb).
  repeat split; assumption.
Qed.

End Frames.

Section Masking.

Context {ndarray KeyPoint : Type}.
Variable env : Env ndarray.
Variable np : Numeric ndarray KeyPoint.
Context {S : Type}.

(** X18: a writer that cannot be opened hides its own error.  When the
    directory of the masks and the reader are fine and opening the
    foreground writer raises [e], [BackgroundSubtractor.process] does not
    raise [e]: the [finally] block reads the variable [fgw], which was
    never bound, and the run ends in [UnboundLocalError], with nothing
    closed and no frame touched. *)
Theorem failed_writer_open_is_masked
    (alg : FrameAlg ndarray S (ndarray * ndarray)) (a : S)
    (input_path : string) (fgmask_path fgvid_path bgvid_path : option string)
    (p : string) (e : Exn) :
  path_ok fgmask_path (ensure_basedir env) = true ->
  is_ok (reader_open env input_path) = true ->
  fgvid_path = Some p -> truthy fgvid_path = true ->
  writer_open env FgWriter p = Raise e ->
  let rt := run (BackgroundSubtractor_process env np alg input_path
                   fgmask_path fgvid_path bgvid_path) a in
  fst rt = Raise (UnboundLocalError "fgw")
  /\ released (snd rt) = []
  /\ frameless (snd rt) = true.
Proof.
  intros Hm Hr -> Ht Ho rt. subst rt. rewrite run_trace, run_result.
  destruct (BackgroundSubtractor_process env np alg input_path fgmask_path
              (Some p) bgvid_path {| self := a; locals := [] |})
    as [[r s'] t] eqn:E.
  simpl. unfold BackgroundSubtractor_process, BackgroundSubtractor_finally,
    ensure in E.
  rewrite path_ok_truthy in Hm.
  rewrite !if_path_truthy in E. rewrite Ht in E.
  unfold bind, try_finally, call, open_writer, close_local, read_local, bind,
    call, ret in E.
  simpl in E.
  destruct (truthy fgmask_path); simpl in E.
  - destruct (ensure_basedir env _) as [[]|?]; [|discriminate Hm].
    destruct (reader_open env input_path) as [[]|?]; [|discriminate Hr].
    simpl in E. rewrite Ho in E. simpl in E.
    inversion E; subst. repeat split.
  - destruct (reader_open env input_path) as [[]|?]; [|discriminate Hr].
    simpl in E. rewrite Ho in E. simpl in E.
    inversion E; subst. repeat split.
Qed.

(** X19: the same for the background writer.  When opening it raises [e]
    and everything before went well, the [finally] block closes the
    foreground writer if there is one, then reads the unbound variable
    [bgw]: the run ends in [UnboundLocalError] instead of [e], and no frame
    is touched. *)
Theorem failed_background_open_is_masked
    (alg : FrameAlg ndarray S (ndarray * ndarray)) (a : S)
    (input_path : string) (fgmask_path fgvid_path bgvid_path : option string)
    (p : string) (e : Exn) :
  path_ok fgmask_path (ensure_basedir env) = true ->
  is_ok (reader_open env input_path) = true ->
  path_ok fgvid_path (writer_open env FgWriter) = true ->
  writer_close env FgWriter = Ok tt ->
  bgvid_path = Some p -> truthy bgvid_path = true ->
  writer_open env BgWriter p = Raise e ->
  let rt := run (BackgroundSubtractor_process env np alg input_path
                   fgmask_path fgvid_path bgvid_path) a in
  fst rt = Raise (UnboundLocalError "bgw")
  /\ released (snd rt) = (if truthy fgvid_path then [FgWriter] else [])
  /\ frameless (snd rt) = true.
Proof.
  intros Hm Hr Hf Hc -> Ht Ho rt. subst rt. rewrite run_trace, run_result.
  destruct (BackgroundSubtractor_process env np alg input_path fgmask_path
              fgvid_path (Some p) {| self := a; locals := [] |})
    as [[r s'] t] eqn:E.
  simpl. unfold BackgroundSubtractor_process, BackgroundSubtractor_finally,
    ensure in E.
  rewrite path_ok_truthy in Hm, Hf.
  rewrite !if_path_truthy in E. rewrite Ht in E.
  unfold bind, try_finally, call, open_writer, close_local, read_local, bind,
    call, ret in E.
  simpl in E.
  destruct (truthy fgmask_path), (truthy fgvid_path); simpl in E;
    try (destruct (ensure_basedir env _) as [[]|?]; [|discriminate Hm]);
    (destruct (reader_open env input_path) as [[]|?]; [|discriminate Hr]);
    simpl in E;
    try (destruct (writer_open env FgWriter _) as [[]|?];
         [|discriminate Hf]);
    simpl in E; rewrite ?Ho in E; simpl in E; rewrite ?Hc in E; simpl in E;
    inversion E; subst; repeat split.
Qed.

End Masking.

Section AbstractBase.

Context {ndarray KeyPoint : Type}.
Variable env : Env ndarray.
Variable np : Numeric ndarray KeyPoint.

(** X20: [process] of the base class [BackgroundSubtractor] itself, whose
    [_process_frame] is left to the subclasses.  On an input with at
    least one frame, with the setup around the frames going well, the run
    calls [_process_frame] on frame 1 only, writes nothing for it, closes
    the writers it opened and raises [NotImplementedError]. *)
Theorem abstract_subtractor_raises_on_first_frame
    (input_path : string) (fgmask_path fgvid_path bgvid_path : option string) :
  stream env <> [] ->
  setup_ok env input_path fgmask_path fgvid_path bgvid_path = true ->
  let rt := run (BackgroundSubtractor_process env np BackgroundSubtractor
                   input_path fgmask_path fgvid_path bgvid_path) tt in
  fst rt = Raise NotImplementedError
  /\ processed (snd rt) = [1]
  /\ saved (snd rt) = []
  /\ written FgWriter (snd rt) = []
  /\ written BgWriter (snd rt) = []
  /\ released (snd rt)
     = (if truthy fgvid_path then [FgWriter] else [])
       ++ (if truthy bgvid_path then [BgWriter] else []).
Proof.
  intros Hs Hok rt. subst rt. rewrite run_trace, run_result.
  destruct (BackgroundSubtractor_process env np BackgroundSubtractor
              input_path fgmask_path fgvid_path bgvid_path
              {| self := tt; locals := [] |})
    as [[r s'] t] eqn:E.
  simpl. unfold BackgroundSubtractor_process, BackgroundSubtractor_finally,
    ensure in E.
  destruct (stream env) as [|img rest]; [contradiction|]. clear Hs.
  unfold setup_ok in Hok. rewrite !path_ok_truthy in Hok.
  rewrite !andb_true_iff in Hok.
  destruct Hok as (((((Hm & Hr) & Hf) & Hb) & Hcf) & Hcb).
  rewrite !if_path_truthy in E.
  unfold bind, try_finally, call, open_writer, close_local, read_local, reset,
    bind, call, ret in E.
  simpl in E.
  destruct (truthy fgmask_path), (truthy fgvid_path), (truthy bgvid_path);
    simpl in E;
    try (destruct (ensure_basedir env _) as [[]|?]; [|discriminate Hm]);
    (destruct (reader_open env input_path) as [[]|?]; [|discriminate Hr]);
    simpl in E;
    try (destruct (writer_open env FgWriter _) as [[]|?];
         [|discriminate Hf]);
    simpl in E;
    try (destruct (writer_open env BgWriter _) as [[]|?];
         [|discriminate Hb]);
    simpl in E;
    (destruct (writer_close env FgWriter) as [[]|?]; [|discriminate Hcf]);
    (destruct (writer_close env BgWriter) as [[]|?]; [|discriminate Hcb]);
    simpl in E; inversion E; subst; repeat split.
Qed.

(** X21: [process] of the base classes [DenseOpticalFlow], [EdgeDetector]
    and [FeaturePointDetector].  On an input with at least one frame, with
    the directories ensured and the [VideoProcessor] entered, the run calls
    [_process_frame] on frame 1 only and writes nothing; it raises
    [NotImplementedError] unless [__exit__] of the [VideoProcessor]
    swallows the exception or raises one of its own. *)
Theorem abstract_process_raises_on_first_frame
    (input_path : string)
    (cart_path polar_path masks_path coords_path vid_path : option string) :
  stream env <> [] ->
  is_ok (processor_init env input_path vid_path) = true ->
  is_ok (processor_enter env) = true ->
  let outcome (rt : result unit * list Event) :=
    fst rt = match processor_exit env true with
             | Ok true => Ok tt
             | Ok false => Raise NotImplementedError
             | Raise e => Raise e
             end
    /\ processed (snd rt) = [1]
    /\ saved (snd rt) = []
    /\ written Processor (snd rt) = [] in
  (path_ok cart_path (ensure_basedir env) = true ->
   path_ok polar_path (ensure_basedir env) = true ->
   outcome (run (DenseOpticalFlow_process env np DenseOpticalFlow input_path
                   cart_path polar_path vid_path) tt))
  /\ (path_ok masks_path (ensure_basedir env) = true ->
      outcome (run (EdgeDetector_process env np EdgeDetector input_path
                      masks_path vid_path) tt))
  /\ (path_ok coords_path (ensure_basedir env) = true ->
      outcome (run (FeaturePointDetector_process env np FeaturePointDetector
                      input_path coords_path vid_path) tt)).
Proof.
  intros Hs Hi He outcome. subst outcome. cbv beta.
  destruct (stream env) as [|img rest] eqn:Hst; [contradiction|]. clear Hs.
  split; [|split]; intros;
    repeat match goal with
    | H : path_ok _ _ = true |- _ => rewrite path_ok_truthy in H
    end;
    rewrite ?run_trace, ?run_result;
    match goal with
    | |- context [?m {| self := tt; locals := [] |}] =>
        destruct (m {| self := tt; locals := [] |}) as [[r s'] t] eqn:E
    end;
    unfold DenseOpticalFlow_process, EdgeDetector_process,
      FeaturePointDetector_process, with_processor, ensure in E;
    rewrite Hst in E;
    rewrite !if_path_truthy in E;
    unfold bind, call, reset, ret in E; simpl in E;
    repeat match goal with
    | H : (if ?b then _ else _) = true |- _ => destruct b
    end;
    simpl in E;
    repeat match type of E with
    | context [ensure_basedir env ?p] =>
        destruct (ensure_basedir env p) as [[]|?]; [|discriminate]
    end;
    simpl in E;
    (destruct (processor_init env input_path vid_path) as [[]|?];
       [|discriminate Hi]);
    (destruct (processor_enter env) as [[]|?]; [|discriminate He]);
    simpl in E;
    destruct (processor_exit env true) as [[]|?]; simpl in E;
    inversion E; subst; repeat split.
Qed.

End AbstractBase.

Section Exit.

Context {ndarray KeyPoint : Type}.
Variable env : Env ndarray.
Variable np : Numeric ndarray KeyPoint.

Local Abbreviation no_exit := (fun ev : Event => negb (is_exit ev)).
Local Abbreviation outside :=
  (fun ev : Event => negb (is_exit ev) && negb (is_enter_ok ev)).

(** [__exit__] is the last call of the trace, and the only one of its
    kind, if [__enter__] returned; it is not called otherwise. *)
Local Abbreviation exits_last t :=
  (if existsb is_enter_ok t
   then exists pre b,
          (t = pre ++ [(ProcessorExit, b)])%list
          /\ forallb no_exit pre = true
   else forallb no_exit t = true).

Lemma outside_split t :
  forallb outside t = true ->
  forallb no_exit t = true /\ existsb is_enter_ok t = false.
Proof.
  induction t as [|ev t IH]; [split; reflexivity|].
  simpl. intros H. apply andb_true_iff in H. destruct H as [Ha H].
  apply andb_true_iff in Ha. destruct Ha as [Hx He].
  destruct (IH H) as [IH1 IH2]. rewrite Hx, IH1, IH2.
  apply negb_true_iff in He. rewrite He. split; reflexivity.
Qed.

Lemma exits_last_prefix {S A B} (m : P S A) (k : A -> P S B) :
  only outside m ->
  (forall a s, exits_last (snd (k a s))) ->
  forall s, exits_last (snd (bind m k s)).
Proof.
  intros Hm Hk s. unfold bind. specialize (Hm s).
  destruct (m s) as [[r s1] t1]. simpl in Hm.
  destruct (outside_split t1 Hm) as [Hx He].
  destruct r as [a|e]; simpl; [|rewrite He; exact Hx].
  specialize (Hk a s1). destruct (k a s1) as [[r2 s2] t2]. simpl in *.
  rewrite existsb_app, He. simpl.
  destruct (existsb is_enter_ok t2).
  - destruct Hk as (pre & b & -> & Hpre). exists (t1 ++ pre), b.
    split; [apply app_assoc|]. rewrite forallb_app, Hx, Hpre. reflexivity.
  - rewrite forallb_app, Hx, Hk. reflexivity.
Qed.

Lemma with_processor_exits {S} input_path vid_path (body : P S unit) :
  only outside body ->
  forall s, exits_last (snd (with_processor env input_path vid_path body s)).
Proof.
  intros Hb s. unfold with_processor, bind, call.
  destruct (processor_init env input_path vid_path) as [[]|e1];
    [|reflexivity].
  destruct (processor_enter env) as [[]|e2]; [|reflexivity].
  specialize (Hb s). destruct (body s) as [[r s1] t1]. simpl in Hb.
  destruct (outside_split t1 Hb) as [Hx He].
  assert (H : exits_last
                ([(ProcessorInit input_path vid_path, true)]
                 ++ [(ProcessorEnter, true)]
                 ++ t1
                 ++ [(ProcessorExit,
                      is_ok (processor_exit env (negb (is_ok r))))])).
  { simpl. exists ((ProcessorInit input_path vid_path, true)
                   :: (ProcessorEnter, true) :: t1), 
      (is_ok (processor_exit env (negb (is_ok r)))).
    split; [reflexivity | exact Hx]. }
  destruct (processor_exit env (negb (is_ok r))) as [[]|e3], r;
    simpl in *; exact H.
Qed.

(** X22: the [VideoProcessor] is left exactly when it was entered.  In
    [process] of [DenseOpticalFlow], [EdgeDetector] and
    [FeaturePointDetector], if [__enter__] returned then [__exit__] is the
    last call of the run and is called once, whatever happened to the
    frames; if it did not, [__exit__] is not called. *)
Theorem processor_exited_once_entered (input_path : string)
    (cart_path polar_path vid_path masks_path coords_path : option string) :
  (forall S (alg : FrameAlg ndarray S ndarray) s,
     exits_last (snd (run (DenseOpticalFlow_process env np alg input_path
                             cart_path polar_path vid_path) s)))
  /\ (forall S (alg : FrameAlg ndarray S ndarray) s,
        exits_last (snd (run (EdgeDetector_process env np alg input_path
                                masks_path vid_path) s)))
  /\ (forall S (alg : FrameAlg ndarray S (list KeyPoint)) s,
        exits_last (snd (run (FeaturePointDetector_process env np alg
                                input_path coords_path vid_path) s))).
Proof.
  repeat split; intros S alg s; rewrite run_trace.
  - unfold DenseOpticalFlow_process, ensure.
    apply exits_last_prefix; [repeat only_step; reflexivity|]. intros _ s1.
    apply exits_last_prefix; [repeat only_step; reflexivity|]. intros _ s2.
    apply exits_last_prefix; [repeat only_step; reflexivity|]. intros _ s3.
    apply with_processor_exits. unfold save.
    repeat only_step;
      try (destruct (negb (truthy polar_path) && negb (truthy vid_path));
           repeat only_step);
      reflexivity.
  - unfold EdgeDetector_process, ensure.
    apply exits_last_prefix; [repeat only_step; reflexivity|]. intros _ s1.
    apply exits_last_prefix; [repeat only_step; reflexivity|]. intros _ s2.
    apply with_processor_exits. unfold save.
    repeat only_step; reflexivity.
  - unfold FeaturePointDetector_process, ensure.
    apply exits_last_prefix; [repeat only_step; reflexivity|]. intros _ s1.
    apply exits_last_prefix; [repeat only_step; reflexivity|]. intros _ s2.
    apply with_processor_exits. unfold save.
    repeat only_step; reflexivity.
Qed.

End Exit.

Section AlgorithmsMore.

Context {ndarray KeyPoint Subtractor float : Type}.
Variable env : Env ndarray.
Variable np : Numeric ndarray KeyPoint.
Variable cv2 : CV2 ndarray Subtractor float.

(** X23: after [_reset], the Farneback estimator chains the frames: once
    the first frame [a] went through, the flow of the next frame [b] is
    estimated from [a] to [b] (both in grayscale), with the parameters of
    the object; [b] becomes the previous frame if the estimation returns,
    and [a] stays the previous frame if it raises. *)
Theorem farneback_chains_frames
    (s : Farneback ndarray float) (a b ga gb flow : ndarray) :
  cvtColor_BGR2GRAY np a = Ok ga ->
  cvtColor_BGR2GRAY np b = Ok gb ->
  farneback_flow cv2 s ga ga = Ok flow ->
  let alg := FarnebackDenseOpticalFlow np cv2 in
  let s1 := snd (_process_frame alg (snd (_reset alg s)) a) in
  fst (_process_frame alg s1 b) = farneback_flow cv2 s ga gb
  /\ _prev_frame (snd (_process_frame alg s1 b))
     = Some (if is_ok (farneback_flow cv2 s ga gb) then gb else ga).
Proof.
  intros Ha Hb Hf. simpl. unfold Farneback_process_frame.
  rewrite Ha. simpl.
  change (farneback_flow cv2
            (set_prev_frame (set_prev_frame s None) (Some ga)) ga ga)
    with (farneback_flow cv2 s ga ga).
  rewrite Hf, Hb. simpl.
  change (farneback_flow cv2
            (set_prev_frame
               (set_prev_frame (set_prev_frame s None) (Some ga)) (Some ga))
            ga gb)
    with (farneback_flow cv2 s ga gb).
  destruct (farneback_flow cv2 s ga gb); split; reflexivity.
Qed.

(** X24: [_reset] of the MOG2 and of the KNN subtractor never raises
    [AttributeError]; when it raises, the object is left as it was, with
    the model it had; when it returns, the object holds a new model, and
    in each case the parameters of the constructor are untouched. *)
Theorem subtractor_reset_outcomes
    (create : option (Z -> float -> bool -> result Subtractor))
    (s : Subtraction Subtractor float) :
  let r := fst (Subtraction_reset create s) in
  let s' := snd (Subtraction_reset create s) in
  r <> Raise AttributeError
  /\ (if is_ok r
      then exists f m, create = Some f
             /\ f (history s) (threshold s) (detect_shadows s) = Ok m
             /\ _fgbg s' = Some m
      else s' = s)
  /\ history s' = history s
  /\ threshold s' = threshold s
  /\ learning_rate s' = learning_rate s
  /\ detect_shadows s' = detect_shadows s.
Proof.
  unfold Subtraction_reset. destruct create as [f|]; simpl.
  - destruct (f (history s) (threshold s) (detect_shadows s)) as [m|e] eqn:E.
    + simpl. repeat split; try discriminate.
      exists f, m. repeat split. exact E.
    + destruct e; simpl; repeat split; discriminate.
  - repeat split. discriminate.
Qed.

(** X25: a subtractor needs [_reset] before its first frame.  On an
    object as the constructor leaves it, [_process_frame] of the MOG2 and
    of the KNN subtractor raises [AttributeError] (its model is [None])
    and changes nothing; after a [_reset] that returned, it applies the
    new model to the frame with the learning rate of the object. *)
Theorem subtractor_needs_reset
    (history0 : Z) (threshold0 learning_rate0 : float) (detect_shadows0 : bool)
    (f : Z -> float -> bool -> result Subtractor) (m : Subtractor)
    (img : ndarray) :
  createBackgroundSubtractorMOG2 cv2 = Some f ->
  f history0 threshold0 detect_shadows0 = Ok m ->
  let alg := MOG2BackgroundSubtractor cv2 in
  let s := Subtraction_init history0 threshold0 learning_rate0
             detect_shadows0 in
  _process_frame alg s img = (Raise AttributeError, s)
  /\ fst (_process_frame alg (snd (_reset alg s)) img)
     = match apply cv2 m img learning_rate0 with
       | (Ok fgmask, m') =>
           rbind (getBackgroundImage cv2 m') (fun bgimg => Ok (fgmask, bgimg))
       | (Raise e, _) => Raise e
       end.
Proof.
  intros Hc Hf. simpl. split; [reflexivity|].
  rewrite Hc. simpl. rewrite Hf. simpl.
  unfold Subtraction_process_frame. simpl.
  destruct (apply cv2 m img learning_rate0) as [[fg|e] m']; [|reflexivity].
  destruct (getBackgroundImage cv2 m'); reflexivity.
Qed.

(** X26: with neither [polar_path] nor [vid_path], [DenseOpticalFlow.process]
    goes on to the next frame right after the Cartesian array: nothing of
    the polar conversion is called, so the run is the same whatever these
    functions would do. *)
Theorem cartesian_only_skips_polar
    (np' : Numeric ndarray KeyPoint)
    S (alg : FrameAlg ndarray S ndarray) (s : S)
    (input_path : string) (cart_path polar_path vid_path : option string) :
  truthy polar_path = false ->
  truthy vid_path = false ->
  run (DenseOpticalFlow_process env np alg input_path cart_path polar_path
         vid_path) s
  = run (DenseOpticalFlow_process env np' alg input_path cart_path polar_path
           vid_path) s.
Proof.
  intros Hp Hv.
  assert (Hfalsy : forall path, truthy path = false ->
                     path = None \/ path = Some "").
  { intros [p|] H; [right|left; reflexivity].
    unfold truthy in H. apply negb_false_iff in H.
    apply String.eqb_eq in H. subst p. reflexivity. }
  destruct (Hfalsy _ Hp) as [-> | ->], (Hfalsy _ Hv) as [-> | ->];
    reflexivity.
Qed.

End AlgorithmsMore.

Section KeypointsMore.

Context {coord KeyPoint : Type}.
Variable KeyPoint_new : coord -> coord -> nat -> KeyPoint.
Variable pt : KeyPoint -> coord * coord.

(** X27: packing and unpacking keypoints are inverse to each other on the
    coordinates.  A [cv2.KeyPoint] keeps the point it was built with, so
    [_unpack_keypoints(_pack_keypoints(pts))] gives back the rows of [pts],
    in order, each as [row, col]; and packing what was unpacked gives
    keypoints at the same points, all of size 1. *)
Theorem keypoints_round_trip
    (pts : list (coord * coord)) (keypoints : list KeyPoint) :
  (forall x y size, pt (KeyPoint_new x y size) = (x, y)) ->
  unpack_keypoints pt (_pack_keypoints KeyPoint_new pts) = pts
  /\ map pt (_pack_keypoints KeyPoint_new (unpack_keypoints pt keypoints))
     = map pt keypoints
  /\ length (_pack_keypoints KeyPoint_new pts) = length pts.
Proof.
  intros Hpt. unfold unpack_keypoints, _pack_keypoints.
  split; [|split].
  - rewrite map_map. rewrite <- (map_id pts) at 2. apply map_ext.
    intros [row col]. rewrite Hpt. reflexivity.
  - rewrite !map_map. apply map_ext. intros kp. rewrite Hpt. simpl.
    destruct (pt kp); reflexivity.
  - apply length_map.
Qed.

End KeypointsMore.

Import Examples.

Lemma normal_return_outputs_every_frame_witness :
  let rt := run (BackgroundSubtractor_process studio arrays
                   (MOG2BackgroundSubtractor opencv3) "in.mp4"
                   (Some "masks/%05d.npy") (Some "fg.mp4") None)
              subtraction in
  fst rt = Ok tt
  /\ processed (snd rt) = [1; 2]
  /\ saved (snd rt) = [("masks/%05d.npy", 1); ("masks/%05d.npy", 2)]
  /\ written FgWriter (snd rt) = [1; 2]
  /\ written BgWriter (snd rt) = [].
Proof.
  split; [reflexivity|].
  apply (normal_return_outputs_every_frame studio arrays
           (MOG2BackgroundSubtractor opencv3) subtraction "in.mp4"
           (Some "masks/%05d.npy") (Some "fg.mp4") None).
  reflexivity.
Defined.

Lemma failed_writer_open_is_masked_witness :
  writer_open (studio_without FgWriter) FgWriter "fg.mp4"
  = Raise (ExternalError 13)
  /\ (let rt := run (BackgroundSubtractor_process (studio_without FgWriter)
                       arrays (MOG2BackgroundSubtractor opencv3) "in.mp4"
                       None (Some "fg.mp4") (Some "bg.mp4")) subtraction in
      fst rt = Raise (UnboundLocalError "fgw")
      /\ released (snd rt) = []
      /\ frameless (snd rt) = true).
Proof.
  split; [reflexivity|].
  apply (failed_writer_open_is_masked (studio_without FgWriter) arrays
           (MOG2BackgroundSubtractor opencv3) subtraction "in.mp4"
           None (Some "fg.mp4") (Some "bg.mp4") "fg.mp4" (ExternalError 13));
    reflexivity.
Defined.

Lemma failed_background_open_is_masked_witness :
  writer_open (studio_without BgWriter) BgWriter "bg.mp4"
  = Raise (ExternalError 13)
  /\ (let rt := run (BackgroundSubtractor_process (studio_without BgWriter)
                       arrays (MOG2BackgroundSubtractor opencv3) "in.mp4"
                       None (Some "fg.mp4") (Some "bg.mp4")) subtraction in
      fst rt = Raise (UnboundLocalError "bgw")
      /\ released (snd rt) = [FgWriter]
      /\ frameless (snd rt) = true).
Proof.
  split; [reflexivity|].
  apply (failed_background_open_is_masked (studio_without BgWriter) arrays
           (MOG2BackgroundSubtractor opencv3) subtraction "in.mp4"
           None (Some "fg.mp4") (Some "bg.mp4") "bg.mp4" (ExternalError 13));
    reflexivity.
Defined.

Lemma abstract_subtractor_raises_on_first_frame_witness :
  stream studio <> []
  /\ setup_ok studio "in.mp4" (Some "masks/%05d.npy") (Some "fg.mp4") None
     = true
  /\ (let rt := run (BackgroundSubtractor_process studio arrays
                       BackgroundSubtractor "in.mp4" (Some "masks/%05d.npy")
                       (Some "fg.mp4") None) tt in
      fst rt = Raise NotImplementedError
      /\ processed (snd rt) = [1]
      /\ saved (snd rt) = []
      /\ written FgWriter (snd rt) = []
      /\ written BgWriter (snd rt) = []
      /\ released (snd rt) = [FgWriter] ++ []).
Proof.
  split; [discriminate|]. split; [reflexivity|].
  apply (abstract_subtractor_raises_on_first_frame studio arrays "in.mp4"
           (Some "masks/%05d.npy") (Some "fg.mp4") None);
    [discriminate | reflexivity].
Defined.

Lemma abstract_process_raises_on_first_frame_witness :
  stream studio <> []
  /\ path_ok (Some "cart/%05d.npy") (ensure_basedir studio) = true
  /\ (let rt := run (DenseOpticalFlow_process studio arrays DenseOpticalFlow
                       "in.mp4" (Some "cart/%05d.npy") None
                       (Some "out.mp4")) tt in
      fst rt = Raise NotImplementedError
      /\ processed (snd rt) = [1]
      /\ saved (snd rt) = []
      /\ written Processor (snd rt) = []).
Proof.
  split; [discriminate|]. split; [reflexivity|].
  apply (proj1 (abstract_process_raises_on_first_frame studio arrays "in.mp4"
                  (Some "cart/%05d.npy") None None None (Some "out.mp4")
                  ltac:(discriminate) eq_refl eq_refl));
    reflexivity.
Defined.

Lemma farneback_chains_frames_witness :
  cvtColor_BGR2GRAY arrays 10 = Ok 10
  /\ cvtColor_BGR2GRAY arrays 13 = Ok 13
  /\ farneback_flow opencv3 farneback 10 10 = Ok 0
  /\ (let alg := FarnebackDenseOpticalFlow arrays opencv3 in
      let s1 := snd (_process_frame alg (snd (_reset alg farneback)) 10) in
      fst (_process_frame alg s1 13) = Ok 3
      /\ _prev_frame (snd (_process_frame alg s1 13)) = Some 13).
Proof.
  split; [reflexivity|]. split; [reflexivity|]. split; [reflexivity|].
  apply (farneback_chains_frames arrays opencv3 farneback 10 13 10 13 0);
    reflexivity.
Defined.

Lemma subtractor_needs_reset_witness :
  createBackgroundSubtractorMOG2 opencv3 = Some (fun _ _ _ => Ok 0)
  /\ (let alg := MOG2BackgroundSubtractor opencv3 in
      _process_frame alg subtraction 10 = (Raise AttributeError, subtraction)
      /\ fst (_process_frame alg (snd (_reset alg subtraction)) 10)
         = Ok (10, 1)).
Proof.
  split; [reflexivity|].
  apply (subtractor_needs_reset opencv3 500%Z 16%Z (-1)%Z false
           (fun _ _ _ => Ok 0) 0 10);
    reflexivity.
Defined.

Lemma cartesian_only_skips_polar_witness :
  truthy (Some "") = false
  /\ run (DenseOpticalFlow_process studio arrays
            (FarnebackDenseOpticalFlow arrays opencv3) "in.mp4"
            (Some "cart/%05d.npy") None (Some "")) farneback
     = run (DenseOpticalFlow_process studio arrays_without_polar
              (FarnebackDenseOpticalFlow arrays opencv3) "in.mp4"
              (Some "cart/%05d.npy") None (Some "")) farneback.
Proof.
  split; [reflexivity|].
  apply (cartesian_only_skips_polar studio arrays arrays_without_polar _
           (FarnebackDenseOpticalFlow arrays opencv3) farneback "in.mp4"
           (Some "cart/%05d.npy") None (Some ""));
    reflexivity.
Defined.

Lemma keypoints_round_trip_witness :
  (forall x y size, keypoint_pt (keypoint x y size) = (x, y))
  /\ unpack_keypoints keypoint_pt
       (_pack_keypoints keypoint [(1, 2); (3, 4)]%Z)
     = [(1, 2); (3, 4)]%Z
  /\ map keypoint_pt
       (_pack_keypoints keypoint
          (unpack_keypoints keypoint_pt [keypoint 5 6 7]))
     = map keypoint_pt [keypoint 5 6 7]
  /\ length (_pack_keypoints keypoint [(1, 2); (3, 4)]%Z)
     = length [(1, 2); (3, 4)]%Z.
Proof.
  split; [reflexivity|].
  apply (keypoints_round_trip keypoint keypoint_pt [(1, 2); (3, 4)]%Z
           [keypoint 5 6 7]).
  reflexivity.
Defined.

End PrimitivesMore.
